(** * dashboard-github-actions: the aggregation pipeline of [main.go]

    A shallow embedding of the Go program that collects GitHub Actions
    workflow runs of several organizations into a dashboard response:
    the period window, the repository and run filters, the status
    normaliser, the duration and "time ago" formatters, the rate-limit
    tracking, the sort of the collected jobs and the summary counters.

    Conventions of the embedding.
    - [time.Time] is an instant: nanoseconds since the Unix epoch, in [Z].
      [time.Duration] is an [int64] count of nanoseconds; [Time.Sub]
      saturates as Go's does.
    - A [*time.Location] is a zone with one fixed offset from UTC
      (what [time.FixedZone] builds); zones with transitions are not
      covered.
    - The [float64] results of [Duration.Hours], [Duration.Minutes] and
      [Duration.Seconds] are exact rationals ([Q]); [int(f)] truncates
      toward zero.
    - Go [string]s are [String.string]; [strings.ToLower] maps the ASCII
      upper-case letters.
    - Pointer fields of the go-github payload are [option]s, except the
      fields that [main.go] dereferences without a nil test ([*run.Status],
      [*run.Name], [*run.ID], [*repo.Name]), which are plain values.
    - [time.Now], the two GitHub API methods and [sort.Slice] are the
      program's environment ([Env]); the code runs in a state monad over
      the [World]: the number of clock readings taken and the log of the
      API calls issued so far. *)

From Stdlib Require Import ZArith QArith Qround List String Ascii Bool Lia.
From Stdlib Require Import Permutation Sorted.
Import ListNotations.

Local Open Scope string_scope.
Local Open Scope Z_scope.

(* ================================================================= *)
(** ** Small library models *)

(** [fmt.Sprintf("%d", n)]: the decimal rendering of an integer. *)
Module fmt.

Fixpoint digits (u : Decimal.uint) : string :=
  match u with
  | Decimal.Nil => ""
  | Decimal.D0 r => String "0" (digits r)
  | Decimal.D1 r => String "1" (digits r)
  | Decimal.D2 r => String "2" (digits r)
  | Decimal.D3 r => String "3" (digits r)
  | Decimal.D4 r => String "4" (digits r)
  | Decimal.D5 r => String "5" (digits r)
  | Decimal.D6 r => String "6" (digits r)
  | Decimal.D7 r => String "7" (digits r)
  | Decimal.D8 r => String "8" (digits r)
  | Decimal.D9 r => String "9" (digits r)
  end.

(** The digits of a natural number, ["0"] for zero. *)
Definition udec (n : N) : string := digits (N.to_uint n).

(** [%d] *)
Definition d (n : Z) : string :=
  if n <? 0 then "-" ++ udec (Z.abs_N n) else udec (Z.abs_N n).

Fixpoint zeros (k : nat) : string :=
  match k with
  | O => ""
  | S k' => String "0" (zeros k')
  end.

(** [%0wd]: zero padding to width [w], the sign counted in the width. *)
Definition d0 (w : nat) (n : Z) : string :=
  let ds := udec (Z.abs_N n) in
  if n <? 0
  then "-" ++ zeros (w - 1 - String.length ds) ++ ds
  else zeros (w - String.length ds) ++ ds.

End fmt.

(** [strings.ToLower], on ASCII. *)
Module strings.

Definition lower_ascii (c : ascii) : ascii :=
  let n := nat_of_ascii c in
  if (Nat.leb 65 n && Nat.leb n 90)%bool then ascii_of_nat (n + 32) else c.

Fixpoint ToLower (s : string) : string :=
  match s with
  | EmptyString => EmptyString
  | String c r => String (lower_ascii c) (ToLower r)
  end.

End strings.

(** The part of package [time] that [main.go] uses. *)
Module time.

Definition Time := Z.
Definition Duration := Z.

Definition Nanosecond : Duration := 1.
Definition Second : Duration := 1000000000.
Definition Minute : Duration := 60 * Second.
Definition Hour : Duration := 60 * Minute.

Definition minDuration : Duration := - 2 ^ 63.
Definition maxDuration : Duration := 2 ^ 63 - 1.

(** [t.Sub(u)]: the difference, saturated to the range of [Duration]. *)
Definition Sub (t u : Time) : Duration :=
  let d := t - u in
  if d <? minDuration then minDuration
  else if maxDuration <? d then maxDuration
  else d.

Definition Add (t : Time) (d : Duration) : Time := t + d.

Definition Before (t u : Time) : bool := t <? u.
Definition After (t u : Time) : bool := u <? t.

(** [d.Hours()], [d.Minutes()], [d.Seconds()] *)
Definition Hours (d : Duration) : Q := d # 3600000000000.
Definition Minutes (d : Duration) : Q := d # 60000000000.
Definition Seconds (d : Duration) : Q := d # 1000000000.

(** A zone with a fixed offset, in seconds east of UTC. *)
Record Location := { offset : Z }.

(** Days since 1970-01-01 of a date of the proleptic Gregorian
    calendar, for a month in 1..12 and any day number (a day outside
    the month counts on from its first day, as [time.Date] normalises). *)
Definition days_from_civil (y m d : Z) : Z :=
  let y := if m <=? 2 then y - 1 else y in
  let era := y / 400 in
  let yoe := y - era * 400 in
  let mp := if 2 <? m then m - 3 else m + 9 in
  let doy := (153 * mp + 2) / 5 + d - 1 in
  let doe := yoe * 365 + yoe / 4 - yoe / 100 + doy in
  era * 146097 + doe - 719468.

(** Year, month and day of a day number. *)
Definition civil_from_days (z : Z) : Z * Z * Z :=
  let z := z + 719468 in
  let era := z / 146097 in
  let doe := z - era * 146097 in
  let yoe := (doe - doe / 1460 + doe / 36524 - doe / 146096) / 365 in
  let y := yoe + era * 400 in
  let doy := doe - (365 * yoe + yoe / 4 - yoe / 100) in
  let mp := (5 * doy + 2) / 153 in
  let d := doy - (153 * mp + 2) / 5 + 1 in
  let m := if mp <? 10 then mp + 3 else mp - 9 in
  (if m <=? 2 then y + 1 else y, m, d).

(** Seconds since the epoch on the wall clock of [loc]. *)
Definition wall (loc : Location) (t : Time) : Z := t / Second + offset loc.

Definition Year (loc : Location) (t : Time) : Z :=
  fst (fst (civil_from_days (wall loc t / 86400))).
Definition Month (loc : Location) (t : Time) : Z :=
  snd (fst (civil_from_days (wall loc t / 86400))).
Definition Day (loc : Location) (t : Time) : Z :=
  snd (civil_from_days (wall loc t / 86400)).
Definition Hour_of (loc : Location) (t : Time) : Z := (wall loc t mod 86400) / 3600.
Definition Minute_of (loc : Location) (t : Time) : Z := (wall loc t mod 3600) / 60.
Definition Second_of (loc : Location) (t : Time) : Z := wall loc t mod 60.
Definition Nanosecond_of (t : Time) : Z := t mod Second.

(** [time.Date(year, month, day, hour, min, sec, nsec, loc)]; a month
    outside 1..12 carries into the year. *)
Definition Date (year month day hour min sec nsec : Z) (loc : Location) : Time :=
  let m0 := month - 1 in
  let year := year + m0 / 12 in
  let month := m0 mod 12 + 1 in
  let w := days_from_civil year month day * 86400 + hour * 3600 + min * 60 + sec in
  (w - offset loc) * Second + nsec.

(** [t.AddDate(years, months, days)] *)
Definition AddDate (loc : Location) (t : Time) (years months days : Z) : Time :=
  Date (Year loc t + years) (Month loc t + months) (Day loc t + days)
       (Hour_of loc t) (Minute_of loc t) (Second_of loc t) (Nanosecond_of t) loc.

End time.

(** [int(f)] of a [float64]: truncation toward zero. *)
Definition int (f : Q) : Z := Z.quot (Qnum f) (Zpos (Qden f)).

(* ================================================================= *)
(** ** The formatters of [main.go] that need no clock *)

Definition formatDuration (start end_ : time.Time) : string :=
  let duration := time.Sub end_ start in
  let hours := int (time.Hours duration) in
  let minutes := Z.rem (int (time.Minutes duration)) 60 in
  let seconds := Z.rem (int (time.Seconds duration)) 60 in
  if 0 <? hours then
    fmt.d hours ++ "h " ++ fmt.d minutes ++ "m " ++ fmt.d seconds ++ "s"
  else if 0 <? minutes then
    fmt.d minutes ++ "m " ++ fmt.d seconds ++ "s"
  else
    fmt.d seconds ++ "s".

Definition pluralize (n : Z) : string :=
  if n =? 1 then "" else "s".


(* ================================================================= *)
(** ** Data model *)

Record Job := {
  ID : string;
  Name : string;
  Status : string;
  Pipeline : string;
  Branch : string;
  Duration : string;
  Started : string;
  Organization : string;
  RunID : Z;
  HTMLURL : string;
  CreatedAt : time.Time
}.

Record DashboardStats := {
  Success : Z;
  Failed : Z;
  Running : Z;
  Pending : Z;
  Total : Z
}.

Record RateLimitInfo := {
  Remaining : Z;
  Limit : Z;
  ResetAt : time.Time
}.

Record DashboardResponse := {
  Stats : DashboardStats;
  Jobs : list Job;
  RateLimit : RateLimitInfo
}.

(** A Go [error] value; [None] is [nil]. *)
Definition error := option string.

(** The go-github payload types, with the fields [main.go] reads. *)
Module github.

(** [resp.Rate] of a [*github.Response] *)
Module Rate.
Record t := { Limit : Z; Remaining : Z; Reset : time.Time }.
End Rate.

Module Repository.
Record t := {
  Name : string;
  PushedAt : option time.Time;
  UpdatedAt : option time.Time
}.
End Repository.

Module WorkflowRun.
Record t := {
  ID : Z;
  Name : string;
  RunNumber : option Z;
  Status : string;
  Conclusion : option string;
  HeadBranch : option string;
  RunStartedAt : option time.Time;
  CreatedAt : option time.Time;
  UpdatedAt : option time.Time;
  HTMLURL : option string
}.
End WorkflowRun.

End github.

(* ================================================================= *)
(** ** The environment and the state monad *)

(** The API methods the program calls. *)
Inductive ApiCall :=
| ListByOrg (org : string)
| ListRepositoryWorkflowRuns (owner repo : string).

(** One API call as the outside world saw it: what was asked, the
    rate-limit snapshot of the reply ([None] for a nil [*Response]) and
    the error of the reply. *)
Record ApiEvent := {
  ev_call : ApiCall;
  ev_resp : option github.Rate.t;
  ev_err : error
}.

Record World := {
  ticks : nat;               (* readings of [time.Now] taken so far *)
  calls : list ApiEvent      (* API calls issued so far, oldest first *)
}.

(** What the program runs against. The replies of the API may depend on
    how many calls came before, so a repeated request may be answered
    differently. *)
Record Env := {
  Local : time.Location;
  clock : nat -> time.Time;
  orgNames : list string;
  Repositories_ListByOrg :
    nat -> string -> list github.Repository.t * option github.Rate.t * error;
  Actions_ListRepositoryWorkflowRuns :
    nat -> string -> string -> list github.WorkflowRun.t * option github.Rate.t * error;
  sort_Slice : (Job -> Job -> bool) -> list Job -> list Job
}.

Definition M (A : Type) : Type := World -> A * World.

Definition ret {A} (a : A) : M A := fun w => (a, w).

Definition bind {A B} (c : M A) (k : A -> M B) : M B :=
  fun w => let (a, w') := c w in k a w'.

Declare Scope monad_scope.
Delimit Scope monad_scope with monad.
Notation "x <- c ;; k" := (bind c (fun x => k))
  (at level 61, c at next level, right associativity) : monad_scope.
Notation "' pat <- c ;; k" := (bind c (fun x => match x with pat => k end))
  (at level 61, pat pattern, c at next level, right associativity) : monad_scope.
Local Open Scope monad_scope.

(** A [for _, x := range l] loop whose body updates the loop state. *)
Fixpoint forEach {A S : Type} (l : list A) (body : A -> S -> M S) (s : S) : M S :=
  match l with
  | [] => ret s
  | x :: l' => s' <- body x s ;; forEach l' body s'
  end.

(** The status strings of a [Job]. *)
Definition is_status (s : string) : bool :=
  (s =? "success")%string || (s =? "failed")%string
  || (s =? "running")%string || (s =? "pending")%string.

(** The snapshot a reply carries, as the program stores it. *)
Definition snapshot (r : github.Rate.t) : RateLimitInfo :=
  {| Remaining := github.Rate.Remaining r;
     Limit := github.Rate.Limit r;
     ResetAt := github.Rate.Reset r |}.

Section Pipeline.

Variable env : Env.

(** [time.Now()] *)
Definition time_Now : M time.Time :=
  fun w => (clock env (ticks w), {| ticks := S (ticks w); calls := calls w |}).

(** [githubClient.Repositories.ListByOrg(ctx, orgName, ...)] *)
Definition ListByOrg_call (orgName : string)
  : M (list github.Repository.t * option github.Rate.t * error) :=
  fun w =>
    let r := Repositories_ListByOrg env (List.length (calls w)) orgName in
    (r, {| ticks := ticks w;
           calls := (calls w ++ [ {| ev_call := ListByOrg orgName;
                                    ev_resp := snd (fst r);
                                    ev_err := snd r |} ])%list |}).

(** [githubClient.Actions.ListRepositoryWorkflowRuns(ctx, orgName, name, ...)] *)
Definition ListRepositoryWorkflowRuns_call (orgName repoName : string)
  : M (list github.WorkflowRun.t * option github.Rate.t * error) :=
  fun w =>
    let r := Actions_ListRepositoryWorkflowRuns env (List.length (calls w)) orgName repoName in
    (r, {| ticks := ticks w;
           calls := (calls w ++ [ {| ev_call := ListRepositoryWorkflowRuns orgName repoName;
                                    ev_resp := snd (fst r);
                                    ev_err := snd r |} ])%list |}).

Definition formatTimeAgo (t : time.Time) : M string :=
  now <- time_Now ;;
  let diff := time.Sub now t in
  let days := int (time.Hours diff / 24)%Q in
  let hours := int (time.Hours diff) in
  let minutes := int (time.Minutes diff) in
  ret (if 0 <? days then
         fmt.d days ++ " day" ++ pluralize days ++ " ago"
       else if 0 <? hours then
         fmt.d hours ++ " hour" ++ pluralize hours ++ " ago"
       else if 0 <? minutes then
         fmt.d minutes ++ " minute" ++ pluralize minutes ++ " ago"
       else "just now").

(** The [switch period] of [fetchWorkflowRuns]. *)
Definition startTime (period : string) (now : time.Time) : time.Time :=
  let loc := Local env in
  if (period =? "today")%string then
    time.Date (time.Year loc now) (time.Month loc now) (time.Day loc now) 1 0 0 0 loc
  else if (period =? "week")%string then
    time.AddDate loc now 0 0 (-7)
  else if (period =? "month")%string then
    time.Date (time.Year loc now) (time.Month loc now) 1 0 0 0 0 loc
  else
    time.AddDate loc now 0 0 (-7).

(** [endTime], computed where [period == "today"]. *)
Definition endTime (now : time.Time) : time.Time :=
  let loc := Local env in
  time.Date (time.Year loc now) (time.Month loc now) (time.Day loc now) 23 0 0 0 loc.

(** The test of the repository loop: is the repository kept? *)
Definition repoKept (period : string) (now : time.Time) (repo : github.Repository.t) : bool :=
  let checkTime :=
    match github.Repository.PushedAt repo with
    | Some t => Some t
    | None => github.Repository.UpdatedAt repo
    end in
  match checkTime with
  | Some checkTime =>
      let checkTimeLocal := checkTime (* In(now.Location()): the same instant *) in
      if negb (time.Before checkTimeLocal (startTime period now)) then
        if (period =? "today")%string then
          negb (time.After checkTimeLocal (endTime now))
        else true
      else false
  | None => false
  end.

Definition filteredRepos (period : string) (now : time.Time)
           (repos : list github.Repository.t) : list github.Repository.t :=
  List.filter (repoKept period now) repos.

(** [runTime]: [RunStartedAt], else [CreatedAt]; [None] where the run
    is skipped for lack of a timestamp. *)
Definition runTime (run : github.WorkflowRun.t) : option time.Time :=
  match github.WorkflowRun.RunStartedAt run with
  | Some t => Some t
  | None => github.WorkflowRun.CreatedAt run
  end.

(** The two [continue] tests on [runTimeLocal]: is the run kept? *)
Definition runKept (period : string) (now runTimeLocal : time.Time) : bool :=
  if time.Before runTimeLocal (startTime period now) then false
  else if (period =? "today")%string then
    if time.After runTimeLocal (endTime now) then false else true
  else true.

(** "Determine job status" *)
Definition jobStatus (run : github.WorkflowRun.t) : string :=
  let status := strings.ToLower (github.WorkflowRun.Status run) in
  let conclusion :=
    match github.WorkflowRun.Conclusion run with
    | Some c => strings.ToLower c
    | None => ""
    end in
  if (status =? "completed")%string then
    if (conclusion =? "success")%string then "success"
    else if (conclusion =? "failure")%string || (conclusion =? "cancelled")%string then "failed"
    else "failed"
  else if (status =? "in_progress")%string || (status =? "queued")%string then "running"
  else "pending".

(** "Calculate duration" *)
Definition duration (run : github.WorkflowRun.t) : M string :=
  match github.WorkflowRun.UpdatedAt run, github.WorkflowRun.RunStartedAt run with
  | Some u, Some s => ret (formatDuration s u)
  | _, _ =>
      match github.WorkflowRun.CreatedAt run with
      | Some c =>
          match github.WorkflowRun.UpdatedAt run with
          | Some u => ret (formatDuration c u)
          | None => t <- time_Now ;; ret (formatDuration c t)
          end
      | None => ret "N/A"
      end
  end.

(** "Format started time" *)
Definition started (run : github.WorkflowRun.t) : M string :=
  match github.WorkflowRun.RunStartedAt run with
  | Some s => formatTimeAgo s
  | None =>
      match github.WorkflowRun.CreatedAt run with
      | Some c => formatTimeAgo c
      | None => ret "N/A"
      end
  end.

(** The [Job] of a run that passed the window tests. *)
Definition makeJob (orgName repoName : string) (run : github.WorkflowRun.t) : M Job :=
  let jobStatus := jobStatus run in
  duration <- duration run ;;
  started <- started run ;;
  let jobName :=
    match github.WorkflowRun.RunNumber run with
    | Some n => github.WorkflowRun.Name run ++ " #" ++ fmt.d n
    | None => github.WorkflowRun.Name run
    end in
  let jobID := "JOB-" ++ fmt.d0 6 (github.WorkflowRun.ID run) in
  let branch :=
    match github.WorkflowRun.HeadBranch run with
    | Some b => b
    | None => "N/A"
    end in
  createdAt <- match github.WorkflowRun.CreatedAt run with
               | Some c => ret c
               | None => time_Now
               end ;;
  let htmlURL :=
    match github.WorkflowRun.HTMLURL run with
    | Some u => u
    | None => "https://github.com/" ++ orgName ++ "/" ++ repoName
              ++ "/actions/runs/" ++ fmt.d (github.WorkflowRun.ID run)
    end in
  ret {| ID := jobID;
         Name := jobName;
         Status := jobStatus;
         Pipeline := repoName;
         Branch := branch;
         Duration := duration;
         Started := started;
         Organization := orgName;
         RunID := github.WorkflowRun.ID run;
         HTMLURL := htmlURL;
         CreatedAt := createdAt |}.

(** The body of [for _, run := range workflowRuns.WorkflowRuns]. *)
Definition runBody (period : string) (now : time.Time) (orgName repoName : string)
           (run : github.WorkflowRun.t) (allJobs : list Job) : M (list Job) :=
  match runTime run with
  | None => ret allJobs
  | Some runTime =>
      let runTimeLocal := runTime (* In(now.Location()): the same instant *) in
      if runKept period now runTimeLocal then
        job <- makeJob orgName repoName run ;;
        ret (allJobs ++ [job])%list
      else ret allJobs
  end.

(** The state of the two outer loops: [allJobs] and [rateLimitInfo]. *)
Definition Acc : Type := list Job * option RateLimitInfo.

(** The body of [for i, repo := range filteredRepos]. *)
Definition repoBody (period : string) (now : time.Time) (orgName : string)
           (repo : github.Repository.t) (acc : Acc) : M Acc :=
  let repoName := github.Repository.Name repo in
  '(workflowRuns, resp, err) <- ListRepositoryWorkflowRuns_call orgName repoName ;;
  match err with
  | Some _ => ret acc
  | None =>
      let rateLimitInfo :=
        match resp with
        | Some rate => Some (snapshot rate)
        | None => snd acc
        end in
      allJobs <- forEach workflowRuns (runBody period now orgName repoName) (fst acc) ;;
      ret (allJobs, rateLimitInfo)
  end.

(** The body of [for _, orgName := range orgNames]. *)
Definition orgBody (period : string) (now : time.Time)
           (orgName : string) (acc : Acc) : M Acc :=
  '(repos, resp, err) <- ListByOrg_call orgName ;;
  match err with
  | Some _ => ret acc
  | None =>
      let rateLimitInfo :=
        match resp with
        | Some rate => Some (snapshot rate)
        | None => snd acc
        end in
      forEach (filteredRepos period now repos) (repoBody period now orgName)
              (fst acc, rateLimitInfo)
  end.

(** The [less] closure handed to [sort.Slice]. *)
Definition newer (a b : Job) : bool := time.After (CreatedAt a) (CreatedAt b).

Definition fetchWorkflowRuns (period : string)
  : M (list Job * option RateLimitInfo * error) :=
  now <- time_Now ;;
  '(allJobs, rateLimitInfo) <- forEach (orgNames env) (orgBody period now) ([], None) ;;
  let allJobs := sort_Slice env newer allJobs in
  rateLimitInfo <- match rateLimitInfo with
                   | Some r => ret (Some r)
                   | None =>
                       t <- time_Now ;;
                       ret (Some {| Remaining := 5000;
                                    Limit := 5000;
                                    ResetAt := time.Add t (1 * time.Hour) |})
                   end ;;
  ret (allJobs, rateLimitInfo, None).

Definition calculateStats (jobs : list Job) : DashboardStats :=
  List.fold_left
    (fun stats job =>
       let s := Status job in
       if (s =? "success")%string then
         {| Success := Success stats + 1; Failed := Failed stats;
            Running := Running stats; Pending := Pending stats; Total := Total stats |}
       else if (s =? "failed")%string then
         {| Success := Success stats; Failed := Failed stats + 1;
            Running := Running stats; Pending := Pending stats; Total := Total stats |}
       else if (s =? "running")%string then
         {| Success := Success stats; Failed := Failed stats;
            Running := Running stats + 1; Pending := Pending stats; Total := Total stats |}
       else if (s =? "pending")%string then
         {| Success := Success stats; Failed := Failed stats;
            Running := Running stats; Pending := Pending stats + 1; Total := Total stats |}
       else stats)
    jobs
    {| Success := 0; Failed := 0; Running := 0; Pending := 0;
       Total := Z.of_nat (List.length jobs) |}.

(** What the handler writes: [http.Error] or the JSON body. *)
Inductive HTTPReply :=
| http_Error (msg : string) (code : Z)
| http_JSON (response : DashboardResponse).

(** [dashboardHandler], from the [period] query parameter ([""] where
    it is missing) to the reply. *)
Definition dashboardHandler (query_period : string) : M HTTPReply :=
  let period := if (query_period =? "")%string then "week" else query_period in
  let period :=
    if negb (period =? "today")%string && negb (period =? "week")%string
       && negb (period =? "month")%string
    then "week" else period in
  _ <- time_Now ;;
  '(jobs, rateLimit, err) <- fetchWorkflowRuns period ;;
  _ <- time_Now ;;
  match err with
  | Some e => ret (http_Error ("Error fetching workflow runs: " ++ e) 500)
  | None =>
      let stats := calculateStats jobs in
      rateLimit <- match rateLimit with
                   | Some r => ret r
                   | None =>
                       t <- time_Now ;;
                       ret {| Remaining := 5000;
                              Limit := 5000;
                              ResetAt := time.Add t (1 * time.Hour) |}
                   end ;;
      ret (http_JSON {| Stats := stats; Jobs := jobs; RateLimit := rateLimit |})
  end.

End Pipeline.

(* ================================================================= *)
(** ** What the environment is assumed to provide *)

(** A [less] that [sort.Slice] accepts: a strict weak order. *)
Definition strict_weak (less : Job -> Job -> bool) : Prop :=
  (forall a b, less a b = true -> less b a = false)
  /\ (forall a b c, less a b = false -> less b c = false -> less a c = false).

(** The contract of [sort.Slice] in package [sort]: the slice is
    rearranged so that no element is [less] than one before it. The
    package promises no more: "The sort is not guaranteed to be stable:
    equal elements may be reversed from their original order." *)
Definition sort_Slice_spec (sort : (Job -> Job -> bool) -> list Job -> list Job) : Prop :=
  forall less l,
    strict_weak less ->
    Permutation l (sort less l)
    /\ StronglySorted (fun a b => less b a = false) (sort less l).

(** A sort keeps the first-collected of two equal jobs first when the
    jobs of every one creation instant come out in the order they went
    in. *)
Definition jobs_at (t : time.Time) (jobs : list Job) : list Job :=
  List.filter (fun j => CreatedAt j =? t) jobs.

Definition keeps_ties (jobs sorted : list Job) : Prop :=
  forall t, jobs_at t sorted = jobs_at t jobs.

(** Newest first. *)
Definition newest_first (jobs : list Job) : Prop :=
  StronglySorted (fun a b => CreatedAt a >= CreatedAt b) jobs.

(** The Aggregator of the specification: the sort of [fetchWorkflowRuns]
    followed by [calculateStats]. *)
Definition Aggregator (env : Env) (jobs : list Job) : DashboardStats * list Job :=
  let sorted := sort_Slice env newer jobs in
  (calculateStats sorted, sorted).

(** The API calls of a log that succeeded and reported a snapshot, and
    the snapshot of the last of them. *)
Definition reported (ev : ApiEvent) : option RateLimitInfo :=
  match ev_err ev, ev_resp ev with
  | None, Some rate => Some (snapshot rate)
  | _, _ => None
  end.

Fixpoint last_reported (evs : list ApiEvent) (before : option RateLimitInfo)
  : option RateLimitInfo :=
  match evs with
  | [] => before
  | ev :: evs' =>
      last_reported evs' (match reported ev with Some r => Some r | None => before end)
  end.

(** The first API call of a cycle that starts in world [w] fails. *)
Definition first_call_fails (env : Env) (w : World) : Prop :=
  match orgNames env with
  | [] => False
  | org :: _ => snd (Repositories_ListByOrg env (List.length (calls w)) org) <> None
  end.

(* ================================================================= *)
(** ** Notions the statements use *)

(** The year of the era, as [civil_from_days] computes it. *)
Definition yoe_of (doe : Z) : Z :=
  (doe - doe / 1460 + doe / 36524 - doe / 146096) / 365.

Definition year_start (yoe : Z) : Z := 365 * yoe + yoe / 4 - yoe / 100.

(** The instant at which the wall clock of [loc] shows day number [z]
    and [s] seconds after midnight. *)
Definition at_wall (loc : time.Location) (z s ns : Z) : time.Time :=
  (z * 86400 + s - time.offset loc) * time.Second + ns.

(** What [formatTimeAgo] returns, by the elapsed time. *)
Definition time_ago (elapsed : Z) : string :=
  let capped := Z.min elapsed time.maxDuration in
  if 24 * time.Hour <=? elapsed then
    let n := capped / (24 * time.Hour) in
    fmt.d n ++ " day" ++ (if n =? 1 then "" else "s") ++ " ago"
  else if time.Hour <=? elapsed then
    let n := elapsed / time.Hour in
    fmt.d n ++ " hour" ++ (if n =? 1 then "" else "s") ++ " ago"
  else if time.Minute <=? elapsed then
    let n := elapsed / time.Minute in
    fmt.d n ++ " minute" ++ (if n =? 1 then "" else "s") ++ " ago"
  else "just now".

(** What [formatDuration] returns, by the elapsed time. *)
Definition elapsed_text (elapsed : Z) : string :=
  let capped := Z.min elapsed time.maxDuration in
  let h := capped / time.Hour in
  let m := (capped / time.Minute) mod 60 in
  let s := (capped / time.Second) mod 60 in
  if time.Hour <=? elapsed then
    fmt.d h ++ "h " ++ fmt.d m ++ "m " ++ fmt.d s ++ "s"
  else if time.Minute <=? elapsed then
    fmt.d m ++ "m " ++ fmt.d s ++ "s"
  else fmt.d s ++ "s".

(** The wall-clock reading of an instant in the zone of the program. *)
Definition reads (env : Env) (t : time.Time) (year month day hour min sec nsec : Z) : Prop :=
  let loc := Local env in
  time.Year loc t = year /\ time.Month loc t = month /\ time.Day loc t = day
  /\ time.Hour_of loc t = hour /\ time.Minute_of loc t = min
  /\ time.Second_of loc t = sec /\ time.Nanosecond_of t = nsec.

(** What the collector knows of a job: the run it was built from passed
    the window tests on its start instant. *)
Definition built_from (env : Env) (period : string) (now : time.Time)
           (orgName : string) (job : Job) : Prop :=
  exists run start,
    runTime run = Some start
    /\ runKept env period now start = true
    /\ Status job = jobStatus run
    /\ Organization job = orgName
    /\ RunID job = github.WorkflowRun.ID run
    /\ (forall c, github.WorkflowRun.CreatedAt run = Some c -> CreatedAt job = c).

(** The world after one more API call. *)
Definition logged (w : World) (ev : ApiEvent) : World :=
  {| ticks := ticks w; calls := (calls w ++ [ev])%list |}.

(** The period the handler hands to [fetchWorkflowRuns]. *)
Definition period_of_query (query_period : string) : string :=
  if (query_period =? "today")%string then "today"
  else if (query_period =? "month")%string then "month"
  else "week".

(** The rate limit the program reports when no reply carried one. *)
Definition default_rate_limit (t : time.Time) : RateLimitInfo :=
  {| Remaining := 5000; Limit := 5000; ResetAt := time.Add t (1 * time.Hour) |}.

(** The environment with the first configured organization left out. *)
Definition without_first_org (env : Env) : Env :=
  {| Local := Local env;
     clock := clock env;
     orgNames := List.tl (orgNames env);
     Repositories_ListByOrg := Repositories_ListByOrg env;
     Actions_ListRepositoryWorkflowRuns := Actions_ListRepositoryWorkflowRuns env;
     sort_Slice := sort_Slice env |}.

(* ================================================================= *)
(** ** Two sorts that meet the contract of [sort.Slice] *)

(** Insertion before the first element that is not [less]. *)
Fixpoint insert_first (less : Job -> Job -> bool) (x : Job) (l : list Job) : list Job :=
  match l with
  | [] => [x]
  | y :: l' => if less y x then y :: insert_first less x l' else x :: y :: l'
  end.

Definition insertion_sort (less : Job -> Job -> bool) (l : list Job) : list Job :=
  List.fold_right (insert_first less) [] l.

(** Insertion after the last element that is not [less]: equal
    elements come out reversed. *)
Fixpoint insert_last (less : Job -> Job -> bool) (x : Job) (l : list Job) : list Job :=
  match l with
  | [] => [x]
  | y :: l' => if less x y then x :: y :: l' else y :: insert_last less x l'
  end.

Definition reversing_sort (less : Job -> Job -> bool) (l : list Job) : list Job :=
  List.fold_right (insert_last less) [] l.

(* ================================================================= *)
(** ** A concrete deployment, for the scenarios *)

Module scenario.

(** UTC+7. *)
Definition jakarta : time.Location := {| time.offset := 7 * 3600 |}.

(** 2024-03-15 12:00:00 local time, and a clock that advances one
    second per reading. *)
Definition noon : time.Time := time.Date 2024 3 15 12 0 0 0 jakarta.

Definition ticking (n : nat) : time.Time :=
  time.Add noon (Z.of_nat n * time.Second).

Definition at_local (day hour : Z) : time.Time :=
  time.Date 2024 3 day hour 0 0 0 jakarta.

Definition repo (name : string) : github.Repository.t :=
  {| github.Repository.Name := name;
     github.Repository.PushedAt := Some (at_local 15 9);
     github.Repository.UpdatedAt := None |}.

Definition run (id : Z) (started created updated : option time.Time)
  : github.WorkflowRun.t :=
  {| github.WorkflowRun.ID := id;
     github.WorkflowRun.Name := "CI";
     github.WorkflowRun.RunNumber := Some id;
     github.WorkflowRun.Status := "completed";
     github.WorkflowRun.Conclusion := Some "success";
     github.WorkflowRun.HeadBranch := Some "main";
     github.WorkflowRun.RunStartedAt := started;
     github.WorkflowRun.CreatedAt := created;
     github.WorkflowRun.UpdatedAt := updated;
     github.WorkflowRun.HTMLURL := None |}.

(** The rate-limit snapshot of the reply to the [n]-th call. *)
Definition rate (n : nat) : github.Rate.t :=
  {| github.Rate.Limit := 5000;
     github.Rate.Remaining := 4999 - Z.of_nat n;
     github.Rate.Reset := at_local 15 13 |}.

(** Every organization has one repository, named after it, with the
    runs [runs]; listing the repositories of [failing] fails. *)
Definition deployment (orgs : list string) (failing : string)
           (runs : list github.WorkflowRun.t)
           (sort : (Job -> Job -> bool) -> list Job -> list Job) : Env :=
  {| Local := jakarta;
     clock := ticking;
     orgNames := orgs;
     Repositories_ListByOrg := fun n org =>
       if (org =? failing)%string
       then ([], None, Some "503 Service Unavailable")
       else ([repo (org ++ "-app")], Some (rate n), None);
     Actions_ListRepositoryWorkflowRuns := fun n org name =>
       (runs, Some (rate n), None);
     sort_Slice := sort |}.

Definition start : World := {| ticks := 0; calls := [] |}.

(** A run that started and finished this morning. *)
Definition morning_run : github.WorkflowRun.t :=
  run 42 (Some (at_local 15 10)) (Some (at_local 15 10)) (Some (at_local 15 11)).

(** A run created yesterday morning and run again today. *)
Definition rerun : github.WorkflowRun.t :=
  run 43 (Some (at_local 15 10)) (Some (at_local 14 10)) (Some (at_local 15 11)).

(** A run with a start instant and nothing else. *)
Definition started_only : github.WorkflowRun.t :=
  run 44 (Some (at_local 15 10)) None None.

Definition three_orgs : Env :=
  deployment ["acme"; "beta"; "gamma"] "beta" [morning_run] insertion_sort.

Definition first_org_down : Env :=
  deployment ["acme"; "beta"] "acme" [morning_run] insertion_sort.

Definition with_rerun : Env :=
  deployment ["acme"] "" [rerun] insertion_sort.

Definition with_started_only : Env :=
  deployment ["acme"] "" [started_only] insertion_sort.

(** Two jobs created at the same instant. *)
Definition job (id : string) (created : time.Time) : Job :=
  {| ID := id; Name := "CI"; Status := "success"; Pipeline := "app";
     Branch := "main"; Duration := "1h 0m 0s"; Started := "2 hours ago";
     Organization := "acme"; RunID := 1; HTMLURL := "";
     CreatedAt := created |}.

Definition twins : list Job :=
  [job "JOB-000001" (at_local 15 10); job "JOB-000002" (at_local 15 10)].

Definition reversing : Env :=
  deployment ["acme"] "" [morning_run] reversing_sort.

End scenario.

(* ================================================================= *)
(** ** Notions the proofs of the loops use *)

(** The event the world logs for a call to [ListRepositoryWorkflowRuns]. *)
Definition runs_event (env : Env) (w : World) (orgName repoName : string) : ApiEvent :=
  let r := Actions_ListRepositoryWorkflowRuns env (List.length (calls w)) orgName repoName in
  {| ev_call := ListRepositoryWorkflowRuns orgName repoName;
     ev_resp := snd (fst r);
     ev_err := snd r |}.

(** The event the world logs for a call to [ListByOrg]. *)
Definition repos_event (env : Env) (w : World) (orgName : string) : ApiEvent :=
  let r := Repositories_ListByOrg env (List.length (calls w)) orgName in
  {| ev_call := ListByOrg orgName;
     ev_resp := snd (fst r);
     ev_err := snd r |}.

(** What a stretch of the collection did: the jobs it appended, all
    built from runs that passed the window tests for one of [orgs], the
    API calls it made, and the snapshot it left. *)
Definition stretch (env : Env) (period : string) (now : time.Time) (orgs : list string)
           (acc : Acc) (w : World) (r : Acc * World) : Prop :=
  exists new evs,
    fst (fst r) = (fst acc ++ new)%list
    /\ Forall (fun job => exists orgName, In orgName orgs
                                         /\ built_from env period now orgName job) new
    /\ calls (snd r) = (calls w ++ evs)%list
    /\ snd (fst r) = last_reported evs (snd acc)
    /\ (ticks w <= ticks (snd r))%nat.

(** How many jobs have status [s]. *)
Fixpoint count_status (s : string) (jobs : list Job) : Z :=
  match jobs with
  | [] => 0
  | job :: jobs' =>
      (if (Status job =? s)%string then 1 else 0) + count_status s jobs'
  end.

(** The jobs one organization contributes when it is visited in world
    [w] with the snapshot [rl]. *)
Definition org_jobs (env : Env) (period : string) (now : time.Time)
           (orgName : string) (rl : option RateLimitInfo) (w : World) : list Job :=
  fst (fst (orgBody env period now orgName ([], rl) w)).

(** A step on the job list that leaves the jobs it is given in place
    and puts behind them what it would collect from nothing. *)
Definition appends_jobs (step : list Job -> M (list Job)) : Prop :=
  forall jobs w, step jobs w = ((jobs ++ fst (step [] w))%list, snd (step [] w)).

Definition appends (step : Acc -> M Acc) : Prop :=
  forall jobs rl w,
    step (jobs, rl) w
    = (((jobs ++ fst (fst (step ([], rl) w)))%list, snd (fst (step ([], rl) w))),
       snd (step ([], rl) w)).

(** The claim as the specification states it: a cycle whose first API
    call fails is answered with an error. *)
Definition fails_as_a_whole (env : Env) (q : string) (w : World) : Prop :=
  first_call_fails env w ->
  exists msg code, fst (dashboardHandler env q w) = http_Error msg code.

From Stdlib Require Import DecimalN.

(* ================================================================= *)
(** ** Configuration: [parseOrganizations] and [init]

    [strings.Split] is modelled for a separator of one byte and
    [strings.TrimSpace] for the ASCII white space that package [strings]
    lists (tab, line feed, vertical tab, form feed, carriage return,
    space); bytes from 128 up are kept as they are. *)

Module strings_more.

(** [strings.Split(s, sep)] for a separator of one byte: the pieces
    between the separators, one more than there are separators. *)
Fixpoint Split (s : string) (sep : ascii) : list string :=
  match s with
  | EmptyString => [EmptyString]
  | String c r =>
      if Ascii.eqb c sep then EmptyString :: Split r sep
      else match Split r sep with
           | piece :: pieces => String c piece :: pieces
           | [] => [String c EmptyString]
           end
  end.

Definition isSpace (c : ascii) : bool :=
  let n := nat_of_ascii c in
  (Nat.leb 9 n && Nat.leb n 13)%bool || Nat.eqb n 32.

Fixpoint TrimLeft (s : string) : string :=
  match s with
  | EmptyString => EmptyString
  | String c r => if isSpace c then TrimLeft r else s
  end.

Fixpoint TrimRight (s : string) : string :=
  match s with
  | EmptyString => EmptyString
  | String c r =>
      match TrimRight r with
      | EmptyString => if isSpace c then EmptyString else String c EmptyString
      | r' => String c r'
      end
  end.

(** [strings.TrimSpace] *)
Definition TrimSpace (s : string) : string := TrimRight (TrimLeft s).

(** [strings.Join(elems, sep)] *)
Fixpoint Join (elems : list string) (sep : string) : string :=
  match elems with
  | [] => EmptyString
  | [e] => e
  | e :: rest => e ++ sep ++ Join rest sep
  end.

End strings_more.

Definition parseOrganizations (orgEnv : string) : list string :=
  let orgs := strings_more.Split orgEnv "," in
  List.fold_left
    (fun result org =>
       let org := strings_more.TrimSpace org in
       if negb (org =? "")%string then (result ++ [org])%list else result)
    orgs [].

(** How [init] leaves the process: stopped by [log.Fatal], or with the
    token of the client and the organizations in [orgNames]. *)
Inductive Startup :=
| Fatal (msg : string)
| Configured (token : string) (orgNames : list string).

(** [init], from the environment as [os.Getenv] reads it after
    [godotenv.Load]. *)
Definition init (Getenv : string -> string) : Startup :=
  let token := Getenv "GITHUB_TOKEN" in
  if (token =? "")%string then
    Fatal "GITHUB_TOKEN environment variable is required"
  else
    let orgEnv := Getenv "GITHUB_ORG" in
    if (orgEnv =? "")%string then
      Fatal "GITHUB_ORG environment variable is required (can be comma-separated for multiple orgs)"
    else
      let orgNames := parseOrganizations orgEnv in
      if Nat.eqb (List.length orgNames) 0 then
        Fatal "At least one organization must be specified in GITHUB_ORG"
      else Configured token orgNames.

(** A name as [parseOrganizations] returns it: not empty, no comma, no
    white space at either end. *)
Definition has_comma (s : string) : bool :=
  List.existsb (fun c => Ascii.eqb c ",") (list_ascii_of_string s).

Definition clean_name (s : string) : Prop :=
  s <> ""
  /\ has_comma s = false
  /\ strings_more.TrimSpace s = s.

(** Only commas and white space. *)
Definition blank (s : string) : Prop :=
  Forall (fun c => c = ","%char \/ strings_more.isSpace c = true) (list_ascii_of_string s).

(** Only white space. *)
Definition spaces (s : string) : Prop :=
  Forall (fun c => strings_more.isSpace c = true) (list_ascii_of_string s).

(** [piece] is [name] with white space around it. *)
Definition padded (name piece : string) : Prop :=
  exists before after, spaces before /\ spaces after /\ piece = before ++ name ++ after.

(* ================================================================= *)
(** ** Notions for the API calls of a cycle *)

Definition is_ListByOrg (c : ApiCall) : bool :=
  match c with
  | ListByOrg _ => true
  | ListRepositoryWorkflowRuns _ _ => false
  end.

(** The organization a call is about. *)
Definition call_org (c : ApiCall) : string :=
  match c with
  | ListByOrg org => org
  | ListRepositoryWorkflowRuns owner _ => owner
  end.

(** The run listings of the repositories [repos] of [orgName]. *)
Definition run_listings (orgName : string) (repos : list github.Repository.t) : list ApiCall :=
  List.map (fun repo => ListRepositoryWorkflowRuns orgName (github.Repository.Name repo)) repos.

(** A deployment in which every repository listing fails. *)
Definition outage : Env :=
  scenario.deployment ["acme"; "acme"] "acme" [scenario.morning_run] insertion_sort.

(* ================================================================= *)
(** ** Notions for the texts of a job *)

(** The digits of a decimal text, read back; a character that is no
    digit ends the reading. *)
Fixpoint undigits (s : string) : Decimal.uint :=
  match s with
  | EmptyString => Decimal.Nil
  | String c r =>
      if Ascii.eqb c "0" then Decimal.D0 (undigits r)
      else if Ascii.eqb c "1" then Decimal.D1 (undigits r)
      else if Ascii.eqb c "2" then Decimal.D2 (undigits r)
      else if Ascii.eqb c "3" then Decimal.D3 (undigits r)
      else if Ascii.eqb c "4" then Decimal.D4 (undigits r)
      else if Ascii.eqb c "5" then Decimal.D5 (undigits r)
      else if Ascii.eqb c "6" then Decimal.D6 (undigits r)
      else if Ascii.eqb c "7" then Decimal.D7 (undigits r)
      else if Ascii.eqb c "8" then Decimal.D8 (undigits r)
      else if Ascii.eqb c "9" then Decimal.D9 (undigits r)
      else Decimal.Nil
  end.

(** Does the text start with a minus sign? *)
Definition minus_sign (s : string) : bool :=
  match s with
  | String c _ => Ascii.eqb c "-"
  | EmptyString => false
  end.

(** The last character of a text. *)
Fixpoint last_char (s : string) : option ascii :=
  match s with
  | EmptyString => None
  | String c EmptyString => Some c
  | String _ r => last_char r
  end.

(** The jobs with none of the four statuses. *)
Fixpoint count_unknown (jobs : list Job) : Z :=
  match jobs with
  | [] => 0
  | job :: jobs' =>
      (if is_status (Status job) then 0 else 1) + count_unknown jobs'
  end.

(** The test of the run loop on a run: has it a start instant inside
    the window? *)
Definition run_in_window (env : Env) (period : string) (now : time.Time)
           (run : github.WorkflowRun.t) : bool :=
  match runTime run with
  | Some start => runKept env period now start
  | None => false
  end.

(* ================================================================= *)
(** ** The pages of [static/script.js]

    The part of the page script that decides which jobs a page of the
    table shows. Its numbers are integers ([Z]); [itemsPerPage] is the
    positive integer the page-size control holds (25 at the start), and
    [totalPages] is modelled for such a value only. The jobs of
    [filteredJobs] are the job objects of the response. *)

Module script.

Record State := {
  filteredJobs : list Job;
  currentPage : Z;
  itemsPerPage : Z
}.

(** [Math.ceil(filteredJobs.length / itemsPerPage)] *)
Definition totalPages (st : State) : Z :=
  - ((- Z.of_nat (List.length (filteredJobs st))) / itemsPerPage st).

(** [Array.prototype.slice(start, end)]: a negative index counts from
    the end, and both are clamped to the array. *)
Definition slice {A : Type} (l : list A) (start end_ : Z) : list A :=
  let len := Z.of_nat (List.length l) in
  let k := if start <? 0 then Z.max (len + start) 0 else Z.min start len in
  let final := if end_ <? 0 then Z.max (len + end_) 0 else Z.min end_ len in
  List.firstn (Z.to_nat (final - k)) (List.skipn (Z.to_nat k) l).

(** [jobsToShow] of [renderTable]. *)
Definition jobsToShow (st : State) : list Job :=
  let startIndex := (currentPage st - 1) * itemsPerPage st in
  let endIndex := startIndex + itemsPerPage st in
  slice (filteredJobs st) startIndex endIndex.

(** The state after [changePage(page)]. *)
Definition changePage (page : Z) (st : State) : State :=
  let totalPages := totalPages st in
  if (1 <=? page) && (page <=? totalPages) then
    {| filteredJobs := filteredJobs st;
       currentPage := page;
       itemsPerPage := itemsPerPage st |}
  else st.

(** The state with another page current. *)
Definition on_page (st : State) (page : Z) : State :=
  {| filteredJobs := filteredJobs st;
     currentPage := page;
     itemsPerPage := itemsPerPage st |}.

(** The page numbers 1 .. [totalPages]. *)
Definition pages (st : State) : list Z :=
  List.map Z.of_nat (List.seq 1 (Z.to_nat (totalPages st))).

End script.

(* ================================================================= *)
(** ** Reduction settings for the proofs *)

Arguments time.Date : simpl never.
Arguments time.AddDate : simpl never.
Arguments time.Year : simpl never.
Arguments time.Month : simpl never.
Arguments time.Day : simpl never.
Arguments time.Hour_of : simpl never.
Arguments time.Minute_of : simpl never.
Arguments time.Second_of : simpl never.
Arguments time.Nanosecond_of : simpl never.
Arguments time.wall : simpl never.
Arguments time.Sub : simpl never.
Arguments time.Add : simpl never.
Arguments formatDuration : simpl never.
Arguments fmt.d : simpl never.
Arguments fmt.d0 : simpl never.
Arguments jobStatus : simpl never.
Arguments at_wall : simpl never.

(* ================================================================= *)
(** ** The calendar *)

Module calendar.

Import time.

Lemma yoe_bounds doe :
  0 <= doe < 146097 ->
  0 <= yoe_of doe <= 399 /\ 0 <= doe - year_start (yoe_of doe) <= 365.
Proof.
  unfold yoe_of, year_start. intros H.
  Z.to_euclidean_division_equations. lia.
Qed.

Lemma days_from_civil_from_days z :
  let '(y, m, d) := civil_from_days z in days_from_civil y m d = z.
Proof.
  unfold civil_from_days.
  set (z1 := z + 719468).
  set (era := z1 / 146097).
  set (doe := z1 - era * 146097).
  assert (Hdoe : 0 <= doe < 146097).
  { subst doe era. Z.to_euclidean_division_equations. lia. }
  fold (yoe_of doe).
  destruct (yoe_bounds doe Hdoe) as [Hyoe Hdoy].
  unfold year_start in Hdoy.
  set (yoe := yoe_of doe) in *.
  set (doy := doe - (365 * yoe + yoe / 4 - yoe / 100)) in *.
  set (mp := (5 * doy + 2) / 153).
  assert (Hmp : 0 <= mp <= 11).
  { subst mp. Z.to_euclidean_division_equations. lia. }
  unfold days_from_civil.
  assert (Hera : (yoe + era * 400) / 400 = era).
  { Z.to_euclidean_division_equations. lia. }
  destruct (mp <? 10) eqn:E10.
  - apply Z.ltb_lt in E10.
    replace (mp + 3 <=? 2) with false by (symmetry; apply Z.leb_gt; lia).
    replace (2 <? mp + 3) with true by (symmetry; apply Z.ltb_lt; lia).
    rewrite Hera.
    replace (yoe + era * 400 - era * 400) with yoe by lia.
    replace (mp + 3 - 3) with mp by lia.
    subst doy doe z1. lia.
  - apply Z.ltb_ge in E10.
    replace (mp - 9 <=? 2) with true by (symmetry; apply Z.leb_le; lia).
    replace (2 <? mp - 9) with false by (symmetry; apply Z.ltb_ge; lia).
    replace (yoe + era * 400 + 1 - 1) with (yoe + era * 400) by lia.
    rewrite Hera.
    replace (yoe + era * 400 - era * 400) with yoe by lia.
    replace (mp - 9 + 9) with mp by lia.
    subst doy doe z1. lia.
Qed.

(** A day between the first day of its year of the era and a day of
    that year is in that year of the era. *)
Lemma yoe_of_same_year doe doe' :
  0 <= doe < 146097 ->
  year_start (yoe_of doe) <= doe' <= doe ->
  yoe_of doe' = yoe_of doe.
Proof.
  unfold yoe_of, year_start. intros H H'.
  Z.to_euclidean_division_equations. lia.
Qed.

Lemma month_index doy :
  0 <= doy <= 365 ->
  let mp := (5 * doy + 2) / 153 in
  0 <= mp <= 11 /\ 0 <= doy - (153 * mp + 2) / 5 <= 30
  /\ (5 * ((153 * mp + 2) / 5) + 2) / 153 = mp.
Proof.
  intros H mp. subst mp.
  Z.to_euclidean_division_equations. lia.
Qed.

(** Going back to day 1 stays in the month. *)
Lemma first_of_month z :
  let '(y, m, d) := civil_from_days z in
  1 <= m <= 12 /\ 1 <= d <= 31 /\ civil_from_days (z - (d - 1)) = (y, m, 1).
Proof.
  unfold civil_from_days.
  set (z1 := z + 719468).
  set (era := z1 / 146097).
  set (doe := z1 - era * 146097).
  assert (Hdoe : 0 <= doe < 146097).
  { subst doe era. Z.to_euclidean_division_equations. lia. }
  fold (yoe_of doe).
  destruct (yoe_bounds doe Hdoe) as [Hyoe Hdoy].
  pose proof (yoe_of_same_year doe) as Hsame.
  unfold year_start in Hdoy, Hsame.
  set (yoe := yoe_of doe) in *.
  set (doy := doe - (365 * yoe + yoe / 4 - yoe / 100)) in *.
  destruct (month_index doy Hdoy) as (Hmp & Hd & Hmp').
  set (mp := (5 * doy + 2) / 153) in *.
  set (d := doy - (153 * mp + 2) / 5 + 1).
  split; [destruct (mp <? 10) eqn:E; [apply Z.ltb_lt in E | apply Z.ltb_ge in E]; lia |].
  split; [lia |].
  set (z1' := z - (d - 1) + 719468).
  assert (Hz1' : z1' = era * 146097 + (doe - (d - 1))) by (subst z1' doe z1; lia).
  assert (Hys : 0 <= 365 * yoe + yoe / 4 - yoe / 100).
  { clear - Hyoe. clearbody yoe. Z.to_euclidean_division_equations. lia. }
  assert (Hms : 0 <= (153 * mp + 2) / 5).
  { clear - Hmp. clearbody mp. Z.to_euclidean_division_equations. lia. }
  assert (Hdoe' : 0 <= doe - (d - 1) <= doe).
  { subst d doy. lia. }
  assert (Hera' : z1' / 146097 = era).
  { rewrite Hz1'. Z.to_euclidean_division_equations. lia. }
  rewrite Hera'.
  replace (z1' - era * 146097) with (doe - (d - 1)) by lia.
  fold (yoe_of (doe - (d - 1))).
  rewrite (Hsame (doe - (d - 1)) Hdoe) by (subst d doy; lia).
  replace (doe - (d - 1) - (365 * yoe + yoe / 4 - yoe / 100))
    with ((153 * mp + 2) / 5) by (subst d doy; lia).
  rewrite Hmp'.
  replace ((153 * mp + 2) / 5 - (153 * mp + 2) / 5 + 1) with 1 by lia.
  reflexivity.
Qed.

End calendar.

(* ================================================================= *)
(** ** Wall-clock readings of the instants [time.Date] builds *)

Module walltime.

Import time.

Lemma wall_at_wall loc z s ns :
  0 <= ns < Second -> wall loc (at_wall loc z s ns) = z * 86400 + s.
Proof.
  unfold wall, at_wall, Second. intros H.
  Z.to_euclidean_division_equations. lia.
Qed.

Lemma day_at_wall loc z s ns :
  0 <= ns < Second -> 0 <= s < 86400 ->
  wall loc (at_wall loc z s ns) / 86400 = z.
Proof.
  intros Hns Hs. rewrite wall_at_wall by assumption.
  Z.to_euclidean_division_equations. lia.
Qed.

Lemma clock_at_wall loc z h mi s ns :
  0 <= ns < Second -> 0 <= h < 24 -> 0 <= mi < 60 -> 0 <= s < 60 ->
  let t := at_wall loc z (h * 3600 + mi * 60 + s) ns in
  Hour_of loc t = h /\ Minute_of loc t = mi /\ Second_of loc t = s
  /\ Nanosecond_of t = ns.
Proof.
  intros Hns Hh Hmi Hs t. subst t.
  unfold Hour_of, Minute_of, Second_of.
  rewrite wall_at_wall by assumption.
  unfold Nanosecond_of, at_wall, Second in *.
  repeat split; Z.to_euclidean_division_equations; lia.
Qed.

(** A time is where its own wall-clock readings say. *)
Lemma at_wall_self loc t :
  at_wall loc (wall loc t / 86400) (wall loc t mod 86400) (t mod Second) = t.
Proof.
  unfold at_wall, wall, Second.
  Z.to_euclidean_division_equations. lia.
Qed.

Lemma clock_sum loc t :
  Hour_of loc t * 3600 + Minute_of loc t * 60 + Second_of loc t
  = wall loc t mod 86400.
Proof.
  unfold Hour_of, Minute_of, Second_of.
  Z.to_euclidean_division_equations. lia.
Qed.

(** [time.Date] on a month in 1..12 and clock fields in range. *)
Lemma Date_at_wall y m d h mi s ns loc :
  1 <= m <= 12 ->
  Date y m d h mi s ns loc
  = at_wall loc (days_from_civil y m d) (h * 3600 + mi * 60 + s) ns.
Proof.
  intros Hm. unfold Date, at_wall.
  replace ((m - 1) / 12) with 0 by (Z.to_euclidean_division_equations; lia).
  replace ((m - 1) mod 12 + 1) with m by (Z.to_euclidean_division_equations; lia).
  rewrite Z.add_0_r. lia.
Qed.

Lemma days_from_civil_day y m d k :
  days_from_civil y m (d + k) = days_from_civil y m d + k.
Proof. unfold days_from_civil. lia. Qed.

(** The date fields of a time name its day number. *)
Lemma days_from_civil_fields loc t :
  days_from_civil (Year loc t) (Month loc t) (Day loc t) = wall loc t / 86400.
Proof.
  unfold Year, Month, Day.
  pose proof (calendar.days_from_civil_from_days (wall loc t / 86400)) as H.
  destruct (civil_from_days (wall loc t / 86400)) as [[y m] d]. exact H.
Qed.

Lemma Month_range loc t : 1 <= Month loc t <= 12.
Proof.
  unfold Month.
  pose proof (calendar.first_of_month (wall loc t / 86400)) as H.
  destruct (civil_from_days (wall loc t / 86400)) as [[y m] d]. simpl. tauto.
Qed.

Lemma Day_range loc t : 1 <= Day loc t <= 31.
Proof.
  unfold Day.
  pose proof (calendar.first_of_month (wall loc t / 86400)) as H.
  destruct (civil_from_days (wall loc t / 86400)) as [[y m] d]. simpl. tauto.
Qed.

(** [time.Date] of a time's own date, at a given hour. *)
Lemma Date_same_day loc t h :
  0 <= h < 24 ->
  let u := Date (Year loc t) (Month loc t) (Day loc t) h 0 0 0 loc in
  u = at_wall loc (wall loc t / 86400) (h * 3600) 0
  /\ Year loc u = Year loc t /\ Month loc u = Month loc t /\ Day loc u = Day loc t
  /\ Hour_of loc u = h /\ Minute_of loc u = 0 /\ Second_of loc u = 0
  /\ Nanosecond_of u = 0.
Proof.
  intros Hh u. subst u.
  rewrite Date_at_wall by apply Month_range.
  rewrite days_from_civil_fields.
  replace (h * 3600 + 0 * 60 + 0) with (h * 3600) by lia.
  split; [reflexivity |].
  assert (Hd : wall loc (at_wall loc (wall loc t / 86400) (h * 3600) 0) / 86400
               = wall loc t / 86400).
  { apply day_at_wall; unfold Second; lia. }
  unfold Year, Month, Day. rewrite Hd.
  repeat (split; [reflexivity |]).
  replace (h * 3600) with (h * 3600 + 0 * 60 + 0) by lia.
  apply clock_at_wall; unfold Second; lia.
Qed.

(** [time.Date] of the first of a time's month, at midnight. *)
Lemma Date_first_of_month loc t :
  let u := Date (Year loc t) (Month loc t) 1 0 0 0 0 loc in
  u = at_wall loc (wall loc t / 86400 - (Day loc t - 1)) 0 0
  /\ Year loc u = Year loc t /\ Month loc u = Month loc t /\ Day loc u = 1
  /\ Hour_of loc u = 0 /\ Minute_of loc u = 0 /\ Second_of loc u = 0
  /\ Nanosecond_of u = 0.
Proof.
  intros u.
  assert (Hu : u = at_wall loc (wall loc t / 86400 - (Day loc t - 1)) 0 0).
  { subst u. rewrite Date_at_wall by apply Month_range.
    replace 1 with (Day loc t + (1 - Day loc t)) at 1 by lia.
    rewrite days_from_civil_day, days_from_civil_fields.
    f_equal; lia. }
  split; [exact Hu |]. clearbody u.
  assert (Hd : wall loc u / 86400 = wall loc t / 86400 - (Day loc t - 1)).
  { rewrite Hu. apply day_at_wall; unfold Second; lia. }
  assert (Hc : civil_from_days (wall loc u / 86400) = (Year loc t, Month loc t, 1)).
  { rewrite Hd. unfold Year, Month, Day.
    pose proof (calendar.first_of_month (wall loc t / 86400)) as H.
    destruct (civil_from_days (wall loc t / 86400)) as [[y m] d].
    simpl. tauto. }
  split; [unfold Year at 1; rewrite Hc; reflexivity |].
  split; [unfold Month at 1; rewrite Hc; reflexivity |].
  split; [unfold Day at 1; rewrite Hc; reflexivity |].
  rewrite Hu. change 0 with (0 * 3600 + 0 * 60 + 0) at 1 3 5 7.
  apply clock_at_wall; unfold Second; lia.
Qed.

(** [AddDate(0, 0, k)] moves a time by [k] days of 24 hours. *)
Lemma AddDate_days loc t k :
  AddDate loc t 0 0 k = t + k * (24 * Hour).
Proof.
  unfold AddDate. rewrite !Z.add_0_r.
  rewrite Date_at_wall by apply Month_range.
  rewrite days_from_civil_day, days_from_civil_fields, clock_sum.
  rewrite <- (at_wall_self loc t) at 4.
  unfold at_wall, Nanosecond_of, Hour, Minute, Second. lia.
Qed.

End walltime.

(* ================================================================= *)
(** ** The status normaliser *)

Lemma is_status_iff s :
  is_status s = true
  <-> s = "success" \/ s = "failed" \/ s = "running" \/ s = "pending".
Proof.
  unfold is_status. rewrite !Bool.orb_true_iff, !String.eqb_eq. tauto.
Qed.

(** The four cases of the status of a run. *)
Lemma jobStatus_cases (run : github.WorkflowRun.t) :
  let status := strings.ToLower (github.WorkflowRun.Status run) in
  let conclusion :=
    match github.WorkflowRun.Conclusion run with
    | Some c => strings.ToLower c
    | None => ""
    end in
  (jobStatus run = "success" <-> status = "completed" /\ conclusion = "success")
  /\ (jobStatus run = "failed" <-> status = "completed" /\ conclusion <> "success")
  /\ (jobStatus run = "running" <-> status = "in_progress" \/ status = "queued")
  /\ (jobStatus run = "pending"
      <-> status <> "completed" /\ status <> "in_progress" /\ status <> "queued")
  /\ is_status (jobStatus run) = true.
Proof.
  intros status conclusion. unfold jobStatus.
  fold status. fold conclusion.
  destruct (String.eqb_spec status "completed") as [Hc | Hc].
  - destruct (String.eqb_spec conclusion "success") as [Hs | Hs].
    + rewrite Hc. repeat split; try discriminate; try tauto;
        intros H; try discriminate; destruct H; discriminate.
    + assert (Hf : (if ((conclusion =? "failure") || (conclusion =? "cancelled"))%string
                    then "failed" else "failed") = "failed")
        by (destruct ((conclusion =? "failure") || (conclusion =? "cancelled"))%string;
            reflexivity).
      rewrite Hf, Hc.
      repeat split; try discriminate; try tauto;
        intros H; try discriminate; destruct H; discriminate.
  - destruct (String.eqb_spec status "in_progress") as [Hp | Hp].
    + simpl. rewrite Hp.
      repeat split; try discriminate; try tauto;
        intros H; try discriminate; destruct H; try discriminate; tauto.
    + destruct (String.eqb_spec status "queued") as [Hq | Hq].
      * simpl. rewrite Hq.
        repeat split; try discriminate; try tauto;
          intros H; try discriminate; destruct H; try discriminate; tauto.
      * simpl.
        repeat split; try discriminate; try tauto;
          intros H; try discriminate; destruct H; try discriminate; tauto.
Qed.

(** C3. The normalised status of a run is [success] exactly for a
    completed run that concluded with success, [failed] exactly for a
    completed run with any other conclusion or none, [running] exactly
    for a run in progress or queued, and [pending] exactly for the rest,
    the raw strings compared after lower-casing; it is always one of the
    four. *)
Theorem jobStatus_total (run : github.WorkflowRun.t) :
  let status := strings.ToLower (github.WorkflowRun.Status run) in
  let conclusion :=
    match github.WorkflowRun.Conclusion run with
    | Some c => strings.ToLower c
    | None => ""
    end in
  (jobStatus run = "success" <-> status = "completed" /\ conclusion = "success")
  /\ (jobStatus run = "failed" <-> status = "completed" /\ conclusion <> "success")
  /\ (jobStatus run = "running" <-> status = "in_progress" \/ status = "queued")
  /\ (jobStatus run = "pending"
      <-> status <> "completed" /\ status <> "in_progress" /\ status <> "queued")
  /\ is_status (jobStatus run) = true.
Proof. exact (jobStatus_cases run). Qed.

(* ================================================================= *)
(** ** Durations as whole hours, minutes and seconds *)

Lemma int_Hours d : int (time.Hours d) = Z.quot d time.Hour.
Proof. reflexivity. Qed.

Lemma int_Minutes d : int (time.Minutes d) = Z.quot d time.Minute.
Proof. reflexivity. Qed.

Lemma int_Seconds d : int (time.Seconds d) = Z.quot d time.Second.
Proof. reflexivity. Qed.

Lemma int_days d : int (time.Hours d / 24)%Q = Z.quot d (24 * time.Hour).
Proof.
  unfold int, time.Hours, Qdiv, Qmult, Qinv. simpl Qnum. simpl Qden.
  rewrite Z.mul_1_r. reflexivity.
Qed.

(** [Sub] on a later and an earlier instant: the elapsed time, capped
    at the largest [Duration]. *)
Lemma Sub_past now t :
  t <= now -> time.Sub now t = Z.min (now - t) time.maxDuration.
Proof.
  intros H. unfold time.Sub, time.minDuration, time.maxDuration.
  destruct (Z.ltb_spec (now - t) (- 2 ^ 63)); [lia |].
  destruct (Z.ltb_spec (2 ^ 63 - 1) (now - t)); lia.
Qed.

Lemma pluralize_spec n : pluralize n = if n =? 1 then "" else "s".
Proof. reflexivity. Qed.

Lemma formatTimeAgo_run env t w :
  snd (formatTimeAgo env t w) = {| ticks := S (ticks w); calls := calls w |}.
Proof. reflexivity. Qed.


(** The duration string, for an end not before the start: hours from
    one hour on, minutes from one minute on, whole seconds always, each
    component truncated. *)
Lemma formatDuration_elapsed (start end_ : time.Time) :
  start <= end_ ->
  formatDuration start end_ = elapsed_text (end_ - start).
Proof.
  intros Hle. unfold formatDuration, elapsed_text.
  rewrite int_Hours, int_Minutes, int_Seconds, Sub_past by assumption.
  set (e := end_ - start). assert (He : 0 <= e) by (subst e; lia).
  set (c := Z.min e time.maxDuration).
  assert (Hc : 0 <= c <= e) by (subst c; unfold time.maxDuration; lia).
  assert (Hhour : 0 < time.Hour) by (vm_compute; reflexivity).
  assert (Hmin : 0 < time.Minute) by (vm_compute; reflexivity).
  assert (Hsec : 0 < time.Second) by (vm_compute; reflexivity).
  assert (Hmax : time.Hour <= time.maxDuration) by (vm_compute; discriminate).
  rewrite !Z.quot_div_nonneg by lia.
  rewrite !Z.rem_mod_nonneg by (try apply Z.div_pos; lia).
  destruct (Z.leb_spec time.Hour e) as [Hh | Hh].
  - assert (H1 : 1 <= c / time.Hour).
    { apply Z.div_le_lower_bound; subst c; lia. }
    destruct (Z.ltb_spec 0 (c / time.Hour)); [reflexivity | lia].
  - assert (Hce : c = e) by (subst c; lia).
    rewrite Hce.
    assert (H0 : e / time.Hour = 0) by (apply Z.div_small; lia).
    rewrite H0. simpl (0 <? 0).
    destruct (Z.leb_spec time.Minute e) as [Hm | Hm].
    + assert (H1 : 1 <= e / time.Minute < 60).
      { split; [apply Z.div_le_lower_bound; lia |].
        apply Z.div_lt_upper_bound; [lia |].
        change (60 * time.Minute) with time.Hour in *.
        unfold time.Hour in *. lia. }
      rewrite (Z.mod_small (e / time.Minute)) by lia.
      destruct (Z.ltb_spec 0 (e / time.Minute)); [reflexivity | lia].
    + assert (H0' : e / time.Minute = 0) by (apply Z.div_small; lia).
      rewrite H0'. reflexivity.
Qed.

Example formatDuration_examples :
  formatDuration 0 (3661 * time.Second) = "1h 1m 1s"
  /\ formatDuration 0 (125 * time.Second) = "2m 5s"
  /\ formatDuration 0 (9 * time.Second) = "9s".
Proof. repeat split; vm_compute; reflexivity. Qed.

(* ================================================================= *)
(** ** The period window *)

Lemma runKept_bounds env period now t :
  runKept env period now t
  = (startTime env period now <=? t)
    && (if (period =? "today")%string then t <=? endTime env now else true).
Proof.
  unfold runKept, time.Before, time.After.
  rewrite Z.leb_antisym.
  generalize (startTime env period now). intros s.
  generalize (endTime env now). intros e.
  destruct (t <? s); [reflexivity |].
  destruct (period =? "today")%string; [| reflexivity].
  simpl. rewrite Z.leb_antisym. destruct (e <? t); reflexivity.
Qed.

Lemma repoKept_runKept env period now repo :
  repoKept env period now repo
  = match github.Repository.PushedAt repo with
    | Some t => runKept env period now t
    | None =>
        match github.Repository.UpdatedAt repo with
        | Some t => runKept env period now t
        | None => false
        end
    end.
Proof.
  unfold repoKept, runKept.
  generalize (startTime env period now). intros s.
  generalize (endTime env now). intros e.
  destruct (github.Repository.PushedAt repo) as [t |];
    [| destruct (github.Repository.UpdatedAt repo) as [t |]; [| reflexivity]].
  all: destruct (time.Before t s); try reflexivity.
  all: destruct (period =? "today")%string; try reflexivity.
  all: destruct (time.After t e); reflexivity.
Qed.

Lemma startTime_today env now :
  startTime env "today" now
  = time.Date (time.Year (Local env) now) (time.Month (Local env) now)
              (time.Day (Local env) now) 1 0 0 0 (Local env).
Proof. unfold startTime. cbn [String.eqb Ascii.eqb Bool.eqb andb]. reflexivity. Qed.

Lemma startTime_week env now :
  startTime env "week" now = time.AddDate (Local env) now 0 0 (-7).
Proof. unfold startTime. cbn [String.eqb Ascii.eqb Bool.eqb andb]. reflexivity. Qed.

Lemma startTime_month env now :
  startTime env "month" now
  = time.Date (time.Year (Local env) now) (time.Month (Local env) now)
              1 0 0 0 0 (Local env).
Proof. unfold startTime. cbn [String.eqb Ascii.eqb Bool.eqb andb]. reflexivity. Qed.

Lemma startTime_other env period now :
  period <> "today" -> period <> "month" ->
  startTime env period now = startTime env "week" now.
Proof.
  intros Ht Hm. unfold startTime.
  cbn [String.eqb Ascii.eqb Bool.eqb andb].
  destruct (String.eqb_spec period "today"); [contradiction |].
  destruct (String.eqb_spec period "month"); [contradiction |].
  destruct (period =? "week")%string; reflexivity.
Qed.

Lemma runKept_other env period now t :
  period <> "today" -> period <> "month" ->
  runKept env period now t = runKept env "week" now t.
Proof.
  intros Ht Hm. rewrite !runKept_bounds, (startTime_other env period) by assumption.
  destruct (String.eqb_spec period "today"); [contradiction | reflexivity].
Qed.

Lemma dashboardHandler_other env period :
  period <> "today" -> period <> "week" -> period <> "month" ->
  dashboardHandler env period = dashboardHandler env "week".
Proof.
  intros Ht Hw Hm. unfold dashboardHandler.
  destruct (String.eqb_spec period ""); [reflexivity |].
  destruct (String.eqb_spec period "today"); [contradiction |].
  destruct (String.eqb_spec period "week"); [contradiction |].
  destruct (String.eqb_spec period "month"); [contradiction |].
  reflexivity.
Qed.

(** C8. For the current instant [now], [today] is the window from
    01:00:00 to 23:00:00 local time of the day of [now]; [week] starts 7
    days before [now] and has no upper bound; [month] starts at 00:00:00
    local time on the 1st of the month of [now] and has no upper bound;
    any other keyword, the empty one included, is treated exactly as
    [week], by the window and by the handler. *)
Theorem period_window env (now : time.Time) :
  let loc := Local env in
  let y := time.Year loc now in
  let m := time.Month loc now in
  let d := time.Day loc now in
  (reads env (startTime env "today" now) y m d 1 0 0 0
   /\ reads env (endTime env now) y m d 23 0 0 0
   /\ forall t, runKept env "today" now t = true
                <-> startTime env "today" now <= t <= endTime env now)
  /\ (startTime env "week" now = now - 7 * (24 * time.Hour)
      /\ forall t, runKept env "week" now t = true <-> startTime env "week" now <= t)
  /\ (reads env (startTime env "month" now) y m 1 0 0 0 0
      /\ forall t, runKept env "month" now t = true <-> startTime env "month" now <= t)
  /\ (forall period,
         period <> "today" -> period <> "week" -> period <> "month" ->
         startTime env period now = startTime env "week" now
         /\ (forall t, runKept env period now t = runKept env "week" now t)
         /\ dashboardHandler env period = dashboardHandler env "week").
Proof.
  intros loc y m d. subst loc y m d.
  pose proof (walltime.Date_same_day (Local env) now 1 ltac:(lia)) as Hstart.
  pose proof (walltime.Date_same_day (Local env) now 23 ltac:(lia)) as Hend.
  pose proof (walltime.Date_first_of_month (Local env) now) as Hmonth.
  cbv zeta in Hstart, Hend, Hmonth.
  split; [| split; [| split]].
  - split; [| split].
    + unfold reads. rewrite startTime_today. exact (proj2 Hstart).
    + unfold reads, endTime. exact (proj2 Hend).
    + intros t. rewrite runKept_bounds.
      cbn [String.eqb Ascii.eqb Bool.eqb andb].
      rewrite Bool.andb_true_iff, !Z.leb_le. tauto.
  - split.
    + rewrite startTime_week, walltime.AddDate_days. lia.
    + intros t. rewrite runKept_bounds.
      cbn [String.eqb Ascii.eqb Bool.eqb andb].
      rewrite Bool.andb_true_r, Z.leb_le. tauto.
  - split.
    + unfold reads. rewrite startTime_month. exact (proj2 Hmonth).
    + intros t. rewrite runKept_bounds.
      cbn [String.eqb Ascii.eqb Bool.eqb andb].
      rewrite Bool.andb_true_r, Z.leb_le. tauto.
  - intros period Ht Hw Hm.
    split; [apply startTime_other; assumption |].
    split; [intros t; apply runKept_other; assumption |].
    apply dashboardHandler_other; assumption.
Qed.

(* ================================================================= *)
(** ** The loops *)

Lemma forEach_app {A S : Type} (l1 l2 : list A) (body : A -> S -> M S) (s : S) (w : World) :
  forEach (l1 ++ l2) body s w
  = let (s1, w1) := forEach l1 body s w in forEach l2 body s1 w1.
Proof.
  revert s w. induction l1 as [| x l1 IH]; intros s w; simpl.
  - reflexivity.
  - unfold bind. destruct (body x s w) as [s' w']. apply IH.
Qed.

(** A loop preserves what each round of its body preserves. *)
Lemma forEach_invariant {A S : Type} (I : S -> World -> Prop)
      (l : list A) (body : A -> S -> M S) :
  (forall x s w, In x l -> I s w -> I (fst (body x s w)) (snd (body x s w))) ->
  forall s w, I s w -> I (fst (forEach l body s w)) (snd (forEach l body s w)).
Proof.
  induction l as [| x l IH]; intros Hbody s w Hs; simpl.
  - exact Hs.
  - unfold bind.
    pose proof (Hbody x s w (or_introl eq_refl) Hs) as H1.
    destruct (body x s w) as [s' w']. simpl in H1.
    apply IH; [| exact H1].
    intros y s0 w0 Hy. apply Hbody. right. exact Hy.
Qed.

(** *** One run *)

Lemma duration_calls env run w :
  calls (snd (duration env run w)) = calls w
  /\ (ticks w <= ticks (snd (duration env run w)))%nat.
Proof.
  unfold duration.
  destruct (github.WorkflowRun.UpdatedAt run), (github.WorkflowRun.RunStartedAt run),
    (github.WorkflowRun.CreatedAt run); simpl; auto.
Qed.

Lemma started_calls env run w :
  calls (snd (started env run w)) = calls w
  /\ (ticks w <= ticks (snd (started env run w)))%nat.
Proof.
  unfold started.
  destruct (github.WorkflowRun.RunStartedAt run), (github.WorkflowRun.CreatedAt run);
    simpl; auto.
Qed.

(** The fields of the [Job] of a run that the claims speak of. *)
Lemma makeJob_fields env orgName repoName run w :
  let job := fst (makeJob env orgName repoName run w) in
  Status job = jobStatus run
  /\ Organization job = orgName
  /\ Pipeline job = repoName
  /\ RunID job = github.WorkflowRun.ID run
  /\ Duration job = fst (duration env run w)
  /\ (forall c, github.WorkflowRun.CreatedAt run = Some c -> CreatedAt job = c)
  /\ calls (snd (makeJob env orgName repoName run w)) = calls w
  /\ (ticks w <= ticks (snd (makeJob env orgName repoName run w)))%nat.
Proof.
  unfold makeJob, bind.
  pose proof (duration_calls env run w) as [Hd Hd'].
  destruct (duration env run w) as [d w1]. simpl in Hd, Hd'.
  pose proof (started_calls env run w1) as [Hs Hs'].
  destruct (started env run w1) as [s w2]. simpl in Hs, Hs'.
  destruct (github.WorkflowRun.CreatedAt run) as [c |]; simpl.
  - repeat split; try lia; try congruence.
  - repeat split; try lia; try congruence.
Qed.

(** One round of the run loop appends at most one job, of a run that
    passed the window tests, and issues no API call. *)
Lemma runBody_step env period now orgName repoName run allJobs w :
  exists new,
    fst (runBody env period now orgName repoName run allJobs w) = (allJobs ++ new)%list
    /\ Forall (built_from env period now orgName) new
    /\ calls (snd (runBody env period now orgName repoName run allJobs w)) = calls w
    /\ (ticks w <= ticks (snd (runBody env period now orgName repoName run allJobs w)))%nat.
Proof.
  unfold runBody.
  destruct (runTime run) as [start |] eqn:Hrt.
  - destruct (runKept env period now start) eqn:Hk.
    + unfold bind.
      pose proof (makeJob_fields env orgName repoName run w) as H.
      destruct (makeJob env orgName repoName run w) as [job w']. simpl in H.
      exists [job]. simpl. split; [reflexivity |]. split; [| tauto].
      constructor; [| constructor].
      exists run, start. tauto.
    + exists []. simpl. rewrite app_nil_r. auto.
  - exists []. simpl. rewrite app_nil_r. auto.
Qed.

Lemma runs_loop env period now orgName repoName runs allJobs w :
  let r := forEach runs (runBody env period now orgName repoName) allJobs w in
  exists new,
    fst r = (allJobs ++ new)%list
    /\ Forall (built_from env period now orgName) new
    /\ calls (snd r) = calls w
    /\ (ticks w <= ticks (snd r))%nat.
Proof.
  revert allJobs w. induction runs as [| run runs IH]; intros allJobs w; simpl.
  - exists []. rewrite app_nil_r. auto.
  - unfold bind.
    destruct (runBody_step env period now orgName repoName run allJobs w)
      as (new1 & H1 & HP1 & Hc1 & Ht1).
    destruct (runBody env period now orgName repoName run allJobs w) as [js w1].
    simpl in H1, Hc1, Ht1. subst js.
    destruct (IH (allJobs ++ new1)%list w1) as (new2 & H2 & HP2 & Hc2 & Ht2).
    exists (new1 ++ new2)%list. rewrite app_assoc.
    split; [exact H2 |]. split; [apply Forall_app; auto |].
    split; [congruence | lia].
Qed.

(** *** The rate-limit snapshot *)

Lemma last_reported_app evs1 evs2 before :
  last_reported (evs1 ++ evs2) before = last_reported evs2 (last_reported evs1 before).
Proof.
  revert before. induction evs1 as [| ev evs1 IH]; intros before; simpl.
  - reflexivity.
  - apply IH.
Qed.

(** *** One repository, one organization *)

(** A repository whose run listing fails is skipped: the jobs and the
    snapshot stay as they were, and one call was made. *)
Lemma repoBody_fails env period now orgName repo acc w :
  ev_err (runs_event env w orgName (github.Repository.Name repo)) <> None ->
  repoBody env period now orgName repo acc w
  = (acc, logged w (runs_event env w orgName (github.Repository.Name repo))).
Proof.
  unfold repoBody, bind, ListRepositoryWorkflowRuns_call, runs_event, logged. simpl.
  destruct (Actions_ListRepositoryWorkflowRuns env (List.length (calls w)) orgName
              (github.Repository.Name repo)) as [[runs resp] [e |]]; simpl.
  - reflexivity.
  - intros H. contradiction.
Qed.

(** An organization whose repository listing fails is skipped. *)
Lemma orgBody_fails env period now orgName acc w :
  ev_err (repos_event env w orgName) <> None ->
  orgBody env period now orgName acc w = (acc, logged w (repos_event env w orgName)).
Proof.
  unfold orgBody, bind, ListByOrg_call, repos_event, logged. simpl.
  destruct (Repositories_ListByOrg env (List.length (calls w)) orgName)
    as [[repos resp] [e |]]; simpl.
  - reflexivity.
  - intros H. contradiction.
Qed.

Lemma stretch_nil env period now orgs acc w : stretch env period now orgs acc w (acc, w).
Proof.
  exists [], []. simpl. rewrite !app_nil_r. auto.
Qed.

Lemma stretch_trans env period now orgs acc w r1 r2 :
  stretch env period now orgs acc w r1 ->
  stretch env period now orgs (fst r1) (snd r1) r2 ->
  stretch env period now orgs acc w r2.
Proof.
  intros (new1 & evs1 & Hj1 & HP1 & Hc1 & Hr1 & Ht1)
         (new2 & evs2 & Hj2 & HP2 & Hc2 & Hr2 & Ht2).
  exists (new1 ++ new2)%list, (evs1 ++ evs2)%list.
  rewrite Hj2, Hj1, Hc2, Hc1, Hr2, Hr1, !app_assoc, last_reported_app.
  repeat split; [apply Forall_app; auto | lia].
Qed.

Lemma stretch_orgs env period now orgs orgs' acc w r :
  incl orgs orgs' ->
  stretch env period now orgs acc w r -> stretch env period now orgs' acc w r.
Proof.
  intros Hincl (new & evs & Hj & HP & Hc & Hr & Ht).
  exists new, evs. repeat split; try assumption.
  eapply Forall_impl; [| exact HP].
  intros job (o & Ho & Hb). exists o. split; [apply Hincl; exact Ho | exact Hb].
Qed.

Lemma forEach_stretch {A : Type} env period now orgs (l : list A) (body : A -> Acc -> M Acc) :
  (forall x acc w, In x l -> stretch env period now orgs acc w (body x acc w)) ->
  forall acc w, stretch env period now orgs acc w (forEach l body acc w).
Proof.
  induction l as [| x l IH]; intros Hbody acc w; simpl.
  - apply stretch_nil.
  - unfold bind.
    pose proof (Hbody x acc w (or_introl eq_refl)) as H1.
    destruct (body x acc w) as [acc1 w1] eqn:E.
    eapply stretch_trans; [exact H1 |]. simpl.
    apply IH. intros y acc0 w0 Hy. apply Hbody. right. exact Hy.
Qed.

Lemma repoBody_stretch env period now orgName repo acc w :
  stretch env period now [orgName] acc w (repoBody env period now orgName repo acc w).
Proof.
  unfold repoBody, bind, ListRepositoryWorkflowRuns_call.
  set (r := Actions_ListRepositoryWorkflowRuns env (List.length (calls w)) orgName
              (github.Repository.Name repo)).
  set (ev := {| ev_call := ListRepositoryWorkflowRuns orgName (github.Repository.Name repo);
                ev_resp := snd (fst r); ev_err := snd r |}).
  set (w1 := {| ticks := ticks w; calls := (calls w ++ [ev])%list |}).
  destruct r as [[runs resp] err] eqn:Er.
  destruct err as [e |].
  - exists [], [ev]. simpl. rewrite app_nil_r.
    repeat split; auto.
  - pose proof (runs_loop env period now orgName (github.Repository.Name repo)
                          runs (fst acc) w1) as (new & Hj & HP & Hc & Ht).
    unfold bind.
    destruct (forEach runs (runBody env period now orgName (github.Repository.Name repo))
                      (fst acc) w1) as [js w2].
    simpl in Hj, Hc, Ht. unfold ret.
    exists new, [ev]. simpl.
    split; [exact Hj |]. split.
    + eapply Forall_impl; [| exact HP].
      intros job Hb. exists orgName. split; [left; reflexivity | exact Hb].
    + split; [exact Hc |]. split; [| exact Ht].
      unfold reported. simpl. destruct resp; reflexivity.
Qed.

Lemma orgBody_stretch env period now orgName acc w :
  stretch env period now [orgName] acc w (orgBody env period now orgName acc w).
Proof.
  unfold orgBody, bind, ListByOrg_call.
  set (r := Repositories_ListByOrg env (List.length (calls w)) orgName).
  set (ev := {| ev_call := ListByOrg orgName; ev_resp := snd (fst r); ev_err := snd r |}).
  set (w1 := {| ticks := ticks w; calls := (calls w ++ [ev])%list |}).
  destruct r as [[repos resp] err] eqn:Er.
  destruct err as [e |].
  - exists [], [ev]. simpl. rewrite app_nil_r. repeat split; auto.
  - assert (H1 : stretch env period now [orgName] acc w
                         ((fst acc, match resp with
                                    | Some rate => Some (snapshot rate)
                                    | None => snd acc
                                    end), w1)).
    { exists [], [ev]. simpl. rewrite app_nil_r. repeat split; auto.
      unfold reported. simpl. destruct resp; reflexivity. }
    eapply stretch_trans; [exact H1 |]. simpl.
    apply forEach_stretch. intros repo acc0 w0 _. apply repoBody_stretch.
Qed.

Lemma orgs_stretch env period now orgs acc w :
  stretch env period now orgs acc w (forEach orgs (orgBody env period now) acc w).
Proof.
  apply forEach_stretch. intros orgName acc0 w0 Hin.
  apply (stretch_orgs env period now [orgName]); [| apply orgBody_stretch].
  intros o [Ho | []]. subst o. exact Hin.
Qed.

(** *** The whole cycle *)

Lemma period_of_query_cases q :
  (q = "today" /\ period_of_query q = "today")
  \/ (q = "month" /\ period_of_query q = "month")
  \/ (q <> "today" /\ q <> "month" /\ period_of_query q = "week").
Proof.
  unfold period_of_query.
  destruct (String.eqb_spec q "today"); [left; auto |].
  destruct (String.eqb_spec q "month"); [right; left; auto |].
  right; right; auto.
Qed.

(** The reply of the handler, spelled out: the clock is read once by
    the handler and once by [fetchWorkflowRuns] before the organizations
    are visited. *)
Lemma dashboardHandler_run env q w :
  let period := period_of_query q in
  let now := clock env (S (ticks w)) in
  let w0 := {| ticks := S (S (ticks w)); calls := calls w |} in
  let r := forEach (orgNames env) (orgBody env period now) ([], None) w0 in
  let jobs := sort_Slice env newer (fst (fst r)) in
  fst (dashboardHandler env q w)
  = http_JSON {| Stats := calculateStats jobs;
                 Jobs := jobs;
                 RateLimit := match snd (fst r) with
                              | Some rl => rl
                              | None => default_rate_limit (clock env (ticks (snd r)))
                              end |}
  /\ calls (snd (dashboardHandler env q w)) = calls (snd r)
  /\ (ticks (snd r) < ticks (snd (dashboardHandler env q w)))%nat.
Proof.
  intros period now w0 r jobs.
  unfold dashboardHandler.
  set (p := if negb _ && _ && _ then "week" else _).
  assert (Hp : p = period) by
    (subst p period; unfold period_of_query;
     destruct (String.eqb_spec q ""); [subst q; reflexivity |];
     destruct (String.eqb_spec q "today"); [simpl; assumption |];
     destruct (String.eqb_spec q "week"); [subst q; reflexivity |];
     destruct (String.eqb_spec q "month"); [simpl; assumption | reflexivity]).
  clearbody p. subst p.
  unfold fetchWorkflowRuns, bind, time_Now, ret. simpl.
  fold now. fold w0. fold r. subst jobs.
  destruct r as [[js [rl |]] w1]; simpl; repeat split; lia.
Qed.

(** The handler never replies with an error. *)
Lemma dashboardHandler_replies env q w :
  exists response, fst (dashboardHandler env q w) = http_JSON response.
Proof.
  destruct (dashboardHandler_run env q w) as [H _].
  eexists. exact H.
Qed.

(* ================================================================= *)
(** ** Sorting *)

Lemma newer_strict_weak : strict_weak newer.
Proof.
  unfold strict_weak, newer, time.After. split.
  - intros a b H. apply Z.ltb_lt in H. apply Z.ltb_ge. lia.
  - intros a b c H1 H2. apply Z.ltb_ge in H1, H2. apply Z.ltb_ge. lia.
Qed.

Section InsertionSorts.

Variable less : Job -> Job -> bool.
Hypothesis Hless : strict_weak less.

Let ordered (a b : Job) : Prop := less b a = false.

Lemma insert_first_perm x l : Permutation (x :: l) (insert_first less x l).
Proof.
  induction l as [| y l IH]; simpl.
  - apply Permutation_refl.
  - destruct (less y x).
    + eapply perm_trans; [apply perm_swap |]. apply perm_skip. exact IH.
    + apply Permutation_refl.
Qed.

Lemma insert_last_perm x l : Permutation (x :: l) (insert_last less x l).
Proof.
  induction l as [| y l IH]; simpl.
  - apply Permutation_refl.
  - destruct (less x y).
    + apply Permutation_refl.
    + eapply perm_trans; [apply perm_swap |]. apply perm_skip. exact IH.
Qed.

Lemma insert_first_sorted x l :
  StronglySorted ordered l -> StronglySorted ordered (insert_first less x l).
Proof.
  destruct Hless as [Hasym Hneg].
  induction l as [| y l IH]; intros Hs; simpl.
  - constructor; [constructor | constructor].
  - inversion Hs as [| y' l' Hs' Hall]; subst.
    destruct (less y x) eqn:E.
    + constructor; [apply IH; exact Hs' |].
      rewrite Forall_forall in *. intros z Hz.
      apply (Permutation_in z (Permutation_sym (insert_first_perm x l))) in Hz.
      destruct Hz as [Hz | Hz].
      * subst z. unfold ordered. apply Hasym. exact E.
      * apply Hall. exact Hz.
    + constructor; [exact Hs |].
      constructor; [exact E |].
      rewrite Forall_forall in *. intros z Hz.
      unfold ordered. apply (Hneg z y x); [apply Hall; exact Hz | exact E].
Qed.

Lemma insert_last_sorted x l :
  StronglySorted ordered l -> StronglySorted ordered (insert_last less x l).
Proof.
  destruct Hless as [Hasym Hneg].
  induction l as [| y l IH]; intros Hs; simpl.
  - constructor; [constructor | constructor].
  - inversion Hs as [| y' l' Hs' Hall]; subst.
    destruct (less x y) eqn:E.
    + constructor; [exact Hs |].
      constructor; [apply Hasym; exact E |].
      rewrite Forall_forall in *. intros z Hz.
      unfold ordered.
      destruct (less z x) eqn:Ezx; [| reflexivity].
      assert (Hxz : less x z = false) by (apply Hasym; exact Ezx).
      pose proof (Hall z Hz) as Hzy. unfold ordered in Hzy.
      rewrite (Hneg x z y Hxz Hzy) in E. discriminate.
    + constructor; [apply IH; exact Hs' |].
      rewrite Forall_forall in *. intros z Hz.
      apply (Permutation_in z (Permutation_sym (insert_last_perm x l))) in Hz.
      destruct Hz as [Hz | Hz].
      * subst z. exact E.
      * apply Hall. exact Hz.
Qed.

End InsertionSorts.

Lemma insertion_sort_spec : sort_Slice_spec insertion_sort.
Proof.
  intros less l Hless. unfold insertion_sort.
  induction l as [| x l [IHp IHs]]; simpl.
  - split; constructor.
  - split.
    + eapply perm_trans; [apply perm_skip; exact IHp | apply insert_first_perm].
    + apply insert_first_sorted; assumption.
Qed.

Lemma reversing_sort_spec : sort_Slice_spec reversing_sort.
Proof.
  intros less l Hless. unfold reversing_sort.
  induction l as [| x l [IHp IHs]]; simpl.
  - split; constructor.
  - split.
    + eapply perm_trans; [apply perm_skip; exact IHp | apply insert_last_perm].
    + apply insert_last_sorted; assumption.
Qed.

(** Two lists of instants, each newest first, one a rearrangement of the
    other, are the same list. *)
Lemma sorted_instants_unique (l1 l2 : list Z) :
  StronglySorted Z.ge l1 -> StronglySorted Z.ge l2 -> Permutation l1 l2 -> l1 = l2.
Proof.
  revert l2. induction l1 as [| a l1 IH]; intros l2 H1 H2 HP.
  - apply Permutation_nil in HP. subst. reflexivity.
  - destruct l2 as [| b l2]; [apply Permutation_sym, Permutation_nil in HP; discriminate |].
    inversion H1 as [| ? ? H1' Ha]; subst.
    inversion H2 as [| ? ? H2' Hb]; subst.
    rewrite Forall_forall in Ha, Hb.
    assert (Hab : a = b).
    { assert (Hin1 : In a (b :: l2)) by (eapply Permutation_in; [exact HP | left; reflexivity]).
      assert (Hin2 : In b (a :: l1))
        by (eapply Permutation_in; [apply Permutation_sym; exact HP | left; reflexivity]).
      destruct Hin1 as [-> | Hin1]; [reflexivity |].
      destruct Hin2 as [-> | Hin2]; [reflexivity |].
      pose proof (Ha b Hin2). pose proof (Hb a Hin1). lia. }
    subst b. f_equal. apply IH; try assumption.
    eapply Permutation_cons_inv. exact HP.
Qed.

Lemma newest_first_instants jobs :
  newest_first jobs -> StronglySorted Z.ge (map CreatedAt jobs).
Proof.
  unfold newest_first. induction 1 as [| a l Hs IH Hall]; simpl.
  - constructor.
  - constructor; [exact IH |].
    rewrite Forall_forall in *. intros t Ht.
    apply in_map_iff in Ht. destruct Ht as (j & <- & Hj). apply Hall. exact Hj.
Qed.

(** What the contract gives for the [less] of the program. *)
Lemma sort_newer env jobs :
  sort_Slice_spec (sort_Slice env) ->
  Permutation jobs (sort_Slice env newer jobs)
  /\ newest_first (sort_Slice env newer jobs).
Proof.
  intros Hspec. destruct (Hspec newer jobs newer_strict_weak) as [HP HS].
  split; [exact HP |].
  unfold newest_first. clear HP.
  induction HS as [| a l HS' IH Hall]; constructor.
  - exact IH.
  - eapply Forall_impl; [| exact Hall].
    intros b H. unfold newer, time.After in H. apply Z.ltb_ge in H. lia.
Qed.

(* ================================================================= *)
(** ** The counters *)

Ltac stats_fields :=
  cbn [String.eqb Ascii.eqb Bool.eqb andb Success Failed Running Pending Total];
  f_equal; lia.

Lemma calculateStats_from init jobs :
  let step := fun stats job =>
    let s := Status job in
    if (s =? "success")%string then
      {| Success := Success stats + 1; Failed := Failed stats;
         Running := Running stats; Pending := Pending stats; Total := Total stats |}
    else if (s =? "failed")%string then
      {| Success := Success stats; Failed := Failed stats + 1;
         Running := Running stats; Pending := Pending stats; Total := Total stats |}
    else if (s =? "running")%string then
      {| Success := Success stats; Failed := Failed stats;
         Running := Running stats + 1; Pending := Pending stats; Total := Total stats |}
    else if (s =? "pending")%string then
      {| Success := Success stats; Failed := Failed stats;
         Running := Running stats; Pending := Pending stats + 1; Total := Total stats |}
    else stats in
  List.fold_left step jobs init
  = {| Success := Success init + count_status "success" jobs;
       Failed := Failed init + count_status "failed" jobs;
       Running := Running init + count_status "running" jobs;
       Pending := Pending init + count_status "pending" jobs;
       Total := Total init |}.
Proof.
  intros step. revert init.
  induction jobs as [| job jobs IH]; intros init.
  - simpl. destruct init; simpl. f_equal; lia.
  - simpl fold_left. rewrite IH. subst step. cbv zeta.
    cbn [count_status].
    destruct (String.eqb_spec (Status job) "success") as [E | E];
      [rewrite E; stats_fields |].
    destruct (String.eqb_spec (Status job) "failed") as [E1 | E1];
      [rewrite E1; stats_fields |].
    destruct (String.eqb_spec (Status job) "running") as [E2 | E2];
      [rewrite E2; stats_fields |].
    destruct (String.eqb_spec (Status job) "pending") as [E3 | E3];
      stats_fields.
Qed.

(** [calculateStats] counts the jobs of each status, and all of them. *)
Lemma calculateStats_counts jobs :
  calculateStats jobs
  = {| Success := count_status "success" jobs;
       Failed := count_status "failed" jobs;
       Running := count_status "running" jobs;
       Pending := count_status "pending" jobs;
       Total := Z.of_nat (List.length jobs) |}.
Proof.
  unfold calculateStats. rewrite calculateStats_from. reflexivity.
Qed.

Lemma count_status_perm s jobs jobs' :
  Permutation jobs jobs' -> count_status s jobs = count_status s jobs'.
Proof.
  induction 1; cbn [count_status]; lia.
Qed.

Lemma calculateStats_perm jobs jobs' :
  Permutation jobs jobs' -> calculateStats jobs = calculateStats jobs'.
Proof.
  intros HP. rewrite !calculateStats_counts.
  rewrite (Permutation_length HP).
  rewrite !(count_status_perm _ jobs jobs' HP). reflexivity.
Qed.

(** Where every job has one of the four statuses, the four counters add
    up to the total, the number of jobs. *)
Lemma calculateStats_sum jobs :
  Forall (fun job => is_status (Status job) = true) jobs ->
  let stats := calculateStats jobs in
  Success stats + Failed stats + Running stats + Pending stats = Total stats
  /\ Total stats = Z.of_nat (List.length jobs).
Proof.
  intros Hall. rewrite calculateStats_counts.
  cbn [Success Failed Running Pending Total]. split; [| reflexivity].
  induction Hall as [| job jobs Hjob Hall IH].
  - reflexivity.
  - cbn [count_status List.length]. rewrite Nat2Z.inj_succ.
    apply is_status_iff in Hjob.
    destruct Hjob as [E | [E | [E | E]]]; rewrite E;
      cbn [String.eqb Ascii.eqb Bool.eqb andb]; lia.
Qed.

(* ================================================================= *)
(** ** The claims *)

(** The cycle of a request, by the run of the organization loop. *)
Lemma cycle_stretch env q w :
  let period := period_of_query q in
  let now := clock env (S (ticks w)) in
  let w0 := {| ticks := S (S (ticks w)); calls := calls w |} in
  stretch env period now (orgNames env) ([], None) w0
          (forEach (orgNames env) (orgBody env period now) ([], None) w0).
Proof. intros period now w0. apply orgs_stretch. Qed.

(** C5. The [rate_limit] of the response is the snapshot of the last
    API call of the cycle that succeeded and reported one, the calls
    taken in the order they were issued; where no call reported one it is
    5000 remaining of 5000, with the reset one hour after a reading of
    the clock taken in the cycle. *)
Theorem rate_limit_last_reported env (q : string) (w : World) :
  exists response evs n,
    fst (dashboardHandler env q w) = http_JSON response
    /\ calls (snd (dashboardHandler env q w)) = (calls w ++ evs)%list
    /\ (ticks w <= n < ticks (snd (dashboardHandler env q w)))%nat
    /\ RateLimit response
       = match last_reported evs None with
         | Some snapshot => snapshot
         | None => {| Remaining := 5000; Limit := 5000;
                      ResetAt := clock env n + time.Hour |}
         end.
Proof.
  destruct (dashboardHandler_run env q w) as (Hreply & Hcalls & Hticks).
  destruct (cycle_stretch env q w) as (new & evs & Hj & HP & Hc & Hr & Ht).
  simpl in Hc, Hr, Ht.
  eexists. exists evs.
  exists (ticks (snd (forEach (orgNames env)
                              (orgBody env (period_of_query q) (clock env (S (ticks w))))
                              ([], None)
                              {| ticks := S (S (ticks w)); calls := calls w |}))).
  split; [exact Hreply |].
  split; [rewrite Hcalls; exact Hc |].
  split; [lia |].
  simpl RateLimit. rewrite Hr.
  destruct (last_reported evs None); [reflexivity |].
  unfold default_rate_limit, time.Add. f_equal; lia.
Qed.

(** Three calls that report 100, 80 and 95 remaining leave 95. *)
Example last_reported_100_80_95 :
  let reply n := {| ev_call := ListByOrg "acme";
                    ev_resp := Some {| github.Rate.Limit := 5000;
                                       github.Rate.Remaining := n;
                                       github.Rate.Reset := 0 |};
                    ev_err := None |} in
  option_map Remaining (last_reported [reply 100; reply 80; reply 95] None) = Some 95.
Proof. reflexivity. Qed.

(** The jobs of the response: a rearrangement, newest first, of jobs
    that were each built from a run that passed the window tests. *)
Lemma response_jobs env q w :
  sort_Slice_spec (sort_Slice env) ->
  exists response collected,
    fst (dashboardHandler env q w) = http_JSON response
    /\ Stats response = calculateStats (Jobs response)
    /\ Permutation collected (Jobs response)
    /\ newest_first (Jobs response)
    /\ Forall (fun job =>
                 exists orgName,
                   In orgName (orgNames env)
                   /\ built_from env (period_of_query q) (clock env (S (ticks w)))
                                 orgName job) collected.
Proof.
  intros Hspec.
  destruct (dashboardHandler_run env q w) as (Hreply & _ & _).
  destruct (cycle_stretch env q w) as (new & evs & Hj & HP & _).
  simpl in Hj.
  eexists. eexists. split; [exact Hreply |]. simpl.
  split; [reflexivity |].
  destruct (sort_newer env
              (fst (fst (forEach (orgNames env)
                                 (orgBody env (period_of_query q) (clock env (S (ticks w))))
                                 ([], None)
                                 {| ticks := S (S (ticks w)); calls := calls w |})))
              Hspec) as [Hperm Hsorted].
  split; [exact Hperm |]. split; [exact Hsorted |].
  rewrite Hj. exact HP.
Qed.

Lemma built_from_status env period now orgName job :
  built_from env period now orgName job -> is_status (Status job) = true.
Proof.
  intros (run & start & _ & _ & Hs & _). rewrite Hs. apply jobStatus_cases.
Qed.

(** C10. In the response of every request the four counters add up to
    [Total], and [Total] is the number of jobs in the response: every job
    the collector builds has one of the four statuses. *)
Theorem stats_add_up env (q : string) (w : World) :
  sort_Slice_spec (sort_Slice env) ->
  exists response,
    fst (dashboardHandler env q w) = http_JSON response
    /\ Forall (fun job => is_status (Status job) = true) (Jobs response)
    /\ Success (Stats response) + Failed (Stats response)
       + Running (Stats response) + Pending (Stats response)
       = Total (Stats response)
    /\ Total (Stats response) = Z.of_nat (List.length (Jobs response)).
Proof.
  intros Hspec.
  destruct (response_jobs env q w Hspec)
    as (response & collected & Hreply & Hstats & Hperm & _ & Hall).
  exists response. split; [exact Hreply |].
  assert (Hvalid : Forall (fun job => is_status (Status job) = true) (Jobs response)).
  { rewrite Forall_forall in *. intros job Hin.
    apply (Permutation_in job (Permutation_sym Hperm)) in Hin.
    destruct (Hall job Hin) as (o & _ & Hb).
    eapply built_from_status. exact Hb. }
  split; [exact Hvalid |].
  rewrite Hstats. apply calculateStats_sum. exact Hvalid.
Qed.

(** The claim at the deployment with three organizations. *)
Lemma stats_add_up_witness :
  sort_Slice_spec (sort_Slice scenario.three_orgs)
  /\ exists response,
    fst (dashboardHandler scenario.three_orgs "today" scenario.start) = http_JSON response
    /\ Forall (fun job => is_status (Status job) = true) (Jobs response)
    /\ Success (Stats response) + Failed (Stats response)
       + Running (Stats response) + Pending (Stats response)
       = Total (Stats response)
    /\ Total (Stats response) = Z.of_nat (List.length (Jobs response)).
Proof.
  split; [apply insertion_sort_spec |].
  apply (stats_add_up scenario.three_orgs "today" scenario.start).
  apply insertion_sort_spec.
Defined.

(** *** The loops only append *)

Lemma forEach_appends_jobs {A : Type} (l : list A) (body : A -> list Job -> M (list Job)) :
  (forall x, appends_jobs (body x)) -> appends_jobs (forEach l body).
Proof.
  intros Hbody. induction l as [| x l IH]; intros jobs w; simpl.
  - unfold ret. simpl. rewrite app_nil_r. reflexivity.
  - unfold bind. rewrite (Hbody x jobs w).
    destruct (body x [] w) as [j1 w1]. simpl.
    rewrite (IH (jobs ++ j1)%list w1), (IH j1 w1). simpl.
    rewrite app_assoc. reflexivity.
Qed.

Lemma forEach_appends {A : Type} (l : list A) (body : A -> Acc -> M Acc) :
  (forall x, appends (body x)) -> appends (forEach l body).
Proof.
  intros Hbody. induction l as [| x l IH]; intros jobs rl w; simpl.
  - unfold ret. simpl. rewrite app_nil_r. reflexivity.
  - unfold bind. rewrite (Hbody x jobs rl w).
    destruct (body x ([], rl) w) as [[j1 rl1] w1]. simpl.
    rewrite (IH (jobs ++ j1)%list rl1 w1), (IH j1 rl1 w1). simpl.
    rewrite app_assoc. reflexivity.
Qed.

Lemma runBody_appends env period now orgName repoName run :
  appends_jobs (runBody env period now orgName repoName run).
Proof.
  intros jobs w. unfold runBody.
  destruct (runTime run) as [start |]; [| simpl; rewrite app_nil_r; reflexivity].
  destruct (runKept env period now start); [| simpl; rewrite app_nil_r; reflexivity].
  unfold bind. destruct (makeJob env orgName repoName run w) as [job w']. reflexivity.
Qed.

Lemma repoBody_appends env period now orgName repo :
  appends (repoBody env period now orgName repo).
Proof.
  intros jobs rl w. unfold repoBody, bind, ListRepositoryWorkflowRuns_call.
  destruct (Actions_ListRepositoryWorkflowRuns env (List.length (calls w)) orgName
              (github.Repository.Name repo)) as [[runs resp] [e |]]; simpl.
  - rewrite app_nil_r. reflexivity.
  - rewrite (forEach_appends_jobs runs _
               (runBody_appends env period now orgName (github.Repository.Name repo)) jobs).
    destruct (forEach runs (runBody env period now orgName (github.Repository.Name repo)) [] _)
      as [js w2].
    reflexivity.
Qed.

Lemma orgBody_appends env period now orgName :
  appends (orgBody env period now orgName).
Proof.
  intros jobs rl w. unfold orgBody, bind, ListByOrg_call.
  destruct (Repositories_ListByOrg env (List.length (calls w)) orgName)
    as [[repos resp] [e |]]; simpl.
  - rewrite app_nil_r. reflexivity.
  - apply (forEach_appends _ _ (repoBody_appends env period now orgName)).
Qed.

(** *** Failures of the API *)

(** The loop over the organizations, past one whose listing fails. *)
Lemma orgs_skip_failed env period now orgName rest acc w :
  ev_err (repos_event env w orgName) <> None ->
  forEach (orgName :: rest) (orgBody env period now) acc w
  = forEach rest (orgBody env period now) acc (logged w (repos_event env w orgName)).
Proof.
  intros Hfail. cbn [forEach]. unfold bind.
  rewrite (orgBody_fails env period now orgName acc w Hfail). reflexivity.
Qed.

(** The loop over the repositories, past one whose run listing fails. *)
Lemma repos_skip_failed env period now orgName repo rest acc w :
  ev_err (runs_event env w orgName (github.Repository.Name repo)) <> None ->
  forEach (repo :: rest) (repoBody env period now orgName) acc w
  = forEach rest (repoBody env period now orgName) acc
            (logged w (runs_event env w orgName (github.Repository.Name repo))).
Proof.
  intros Hfail. cbn [forEach]. unfold bind.
  rewrite (repoBody_fails env period now orgName repo acc w Hfail). reflexivity.
Qed.

(** C9. The handler never replies with an error. An organization whose
    repository listing fails, and a repository whose run listing fails,
    leave the collected jobs and the snapshot as they were, and the loop
    goes on with the next one. With three organizations of which the
    second fails its repository listing, the jobs of the response are a
    rearrangement of the jobs of the first followed by the jobs of the
    third. *)
Theorem partial_failure env :
  (forall q w, exists response, fst (dashboardHandler env q w) = http_JSON response)
  /\ (forall period now orgName rest acc w,
         ev_err (repos_event env w orgName) <> None ->
         orgBody env period now orgName acc w = (acc, logged w (repos_event env w orgName))
         /\ forEach (orgName :: rest) (orgBody env period now) acc w
            = forEach rest (orgBody env period now) acc
                      (logged w (repos_event env w orgName)))
  /\ (forall period now orgName repo rest acc w,
         ev_err (runs_event env w orgName (github.Repository.Name repo)) <> None ->
         repoBody env period now orgName repo acc w
         = (acc, logged w (runs_event env w orgName (github.Repository.Name repo)))
         /\ forEach (repo :: rest) (repoBody env period now orgName) acc w
            = forEach rest (repoBody env period now orgName) acc
                      (logged w (runs_event env w orgName (github.Repository.Name repo))))
  /\ (forall q w org1 org2 org3,
         sort_Slice_spec (sort_Slice env) ->
         orgNames env = [org1; org2; org3] ->
         let period := period_of_query q in
         let now := clock env (S (ticks w)) in
         let w0 := {| ticks := S (S (ticks w)); calls := calls w |} in
         let r1 := orgBody env period now org1 ([], None) w0 in
         ev_err (repos_event env (snd r1) org2) <> None ->
         let w2 := logged (snd r1) (repos_event env (snd r1) org2) in
         exists response,
           fst (dashboardHandler env q w) = http_JSON response
           /\ Permutation (org_jobs env period now org1 None w0
                           ++ org_jobs env period now org3 (snd (fst r1)) w2)%list
                          (Jobs response)).
Proof.
  split; [intros q w; apply dashboardHandler_replies |].
  split; [intros period now orgName rest acc w Hfail; split;
          [apply orgBody_fails | apply orgs_skip_failed]; exact Hfail |].
  split; [intros period now orgName repo rest acc w Hfail; split;
          [apply repoBody_fails | apply repos_skip_failed]; exact Hfail |].
  intros q w org1 org2 org3 Hspec Horgs period now w0 r1 Hfail w2.
  destruct (dashboardHandler_run env q w) as (Hreply & _ & _).
  eexists. split; [exact Hreply |].
  cbn [Jobs]. rewrite Horgs.
  fold period. fold now. fold w0.
  eapply perm_trans; [| apply (sort_newer env _ Hspec)].
  cbn [forEach]. unfold bind, org_jobs. fold r1.
  subst w2. clearbody r1. destruct r1 as [[jobs1 rl1] w1].
  cbn [snd fst] in *.
  rewrite (orgBody_fails env period now org2 (jobs1, rl1) w1 Hfail).
  rewrite (orgBody_appends env period now org3 jobs1 rl1).
  unfold ret. cbn [fst snd].
  apply Permutation_refl.
Qed.

(** The claim at the deployment with three organizations, where the
    listing of the second fails. *)
Lemma partial_failure_witness :
  let env := scenario.three_orgs in
  let now := clock env 1 in
  let w0 := {| ticks := 2; calls := [] |} in
  let r1 := orgBody env "today" now "acme" ([], None) w0 in
  let w2 := logged (snd r1) (repos_event env (snd r1) "beta") in
  sort_Slice_spec (sort_Slice env)
  /\ orgNames env = ["acme"; "beta"; "gamma"]
  /\ ev_err (repos_event env (snd r1) "beta") <> None
  /\ exists response,
      fst (dashboardHandler env "today" scenario.start) = http_JSON response
      /\ Permutation (org_jobs env "today" now "acme" None w0
                      ++ org_jobs env "today" now "gamma" (snd (fst r1)) w2)%list
                     (Jobs response).
Proof.
  cbv zeta.
  split; [apply insertion_sort_spec |].
  split; [reflexivity |].
  split; [vm_compute; discriminate |].
  apply (proj2 (proj2 (proj2 (partial_failure scenario.three_orgs)))
               "today" scenario.start "acme" "beta" "gamma").
  - apply insertion_sort_spec.
  - reflexivity.
  - vm_compute. discriminate.
Defined.


(** *** The first call *)

Lemma orgBody_without_first env :
  orgBody (without_first_org env) = orgBody env.
Proof.
  cbv beta iota delta
      [orgBody repoBody runBody makeJob duration started formatTimeAgo time_Now
       ListByOrg_call ListRepositoryWorkflowRuns_call filteredRepos repoKept runKept
       startTime endTime without_first_org Local clock orgNames
       Repositories_ListByOrg Actions_ListRepositoryWorkflowRuns sort_Slice].
  reflexivity.
Qed.

(** Where the listing of the first organization fails and the second
    organization answers, the handler replies with the job of the second
    organization and the snapshot of the last call: no error. *)
Lemma first_call_failure_still_replies :
  first_call_fails scenario.first_org_down scenario.start
  /\ (exists response,
         fst (dashboardHandler scenario.first_org_down "" scenario.start)
         = http_JSON response
         /\ map Organization (Jobs response) = ["beta"]
         /\ Total (Stats response) = 1
         /\ Remaining (RateLimit response) = 4997)
  /\ ~ fails_as_a_whole scenario.first_org_down "" scenario.start.
Proof.
  assert (Hfirst : first_call_fails scenario.first_org_down scenario.start)
    by (vm_compute; discriminate).
  split; [exact Hfirst |].
  destruct (dashboardHandler_replies scenario.first_org_down "" scenario.start)
    as [response Hreply].
  split.
  - exists response. split; [exact Hreply |].
    assert (H : fst (dashboardHandler scenario.first_org_down "" scenario.start)
                = http_JSON response) by exact Hreply.
    vm_compute in H. injection H as H. subst response.
    repeat split; vm_compute; reflexivity.
  - intros Hclaim. destruct (Hclaim Hfirst) as (msg & code & Herr).
    rewrite Hreply in Herr. discriminate.
Qed.

(** C1, amended. Where the first API call of a cycle fails, the handler
    still replies with a response and no error: the cycle is the cycle
    over the remaining organizations, run after the failed call. *)
Theorem first_call_failure_skipped env (q : string) (w : World) :
  first_call_fails env w ->
  (exists response, fst (dashboardHandler env q w) = http_JSON response)
  /\ dashboardHandler env q w
     = dashboardHandler (without_first_org env) q
                        (logged w (repos_event env w (List.hd "" (orgNames env)))).
Proof.
  intros Hfail. split; [apply dashboardHandler_replies |].
  unfold first_call_fails in Hfail.
  destruct (orgNames env) as [| orgName rest] eqn:Horgs; [contradiction |].
  cbn [List.hd].
  unfold dashboardHandler, fetchWorkflowRuns, bind, time_Now, ret.
  rewrite orgBody_without_first.
  cbn [ticks calls logged orgNames clock sort_Slice without_first_org List.tl].
  rewrite Horgs. cbn [List.tl].
  set (p := if negb _ && _ && _ then "week" else _).
  set (w0 := {| ticks := S (S (ticks w)); calls := calls w |}).
  assert (Hfail0 : ev_err (repos_event env w0 orgName) <> None) by exact Hfail.
  rewrite (orgs_skip_failed env p (clock env (S (ticks w))) orgName rest ([], None) w0 Hfail0).
  reflexivity.
Qed.

(** The amended claim at the deployment whose first organization is down. *)
Lemma first_call_failure_skipped_witness :
  first_call_fails scenario.first_org_down scenario.start
  /\ (exists response,
         fst (dashboardHandler scenario.first_org_down "week" scenario.start)
         = http_JSON response)
  /\ dashboardHandler scenario.first_org_down "week" scenario.start
     = dashboardHandler (without_first_org scenario.first_org_down) "week"
         (logged scenario.start
                 (repos_event scenario.first_org_down scenario.start
                              (List.hd "" (orgNames scenario.first_org_down)))).
Proof.
  split; [vm_compute; discriminate |].
  apply (first_call_failure_skipped scenario.first_org_down "week" scenario.start).
  vm_compute. discriminate.
Defined.

(** *** The window of [today] and the creation instant *)




(** *** The Aggregator *)

(** A sort that meets the contract of [sort.Slice] may swap two jobs
    created at the same instant, and swap them back when it is applied to
    its own output. *)
Lemma ties_may_be_reversed :
  let env := scenario.reversing in
  let once := snd (Aggregator env scenario.twins) in
  let twice := snd (Aggregator env once) in
  sort_Slice_spec (sort_Slice env)
  /\ map CreatedAt scenario.twins = [scenario.at_local 15 10; scenario.at_local 15 10]
  /\ map ID scenario.twins = ["JOB-000001"; "JOB-000002"]
  /\ map ID once = ["JOB-000002"; "JOB-000001"]
  /\ ~ keeps_ties scenario.twins once
  /\ twice <> once.
Proof.
  cbv zeta.
  split; [apply reversing_sort_spec |].
  split; [reflexivity |].
  split; [reflexivity |].
  split; [vm_compute; reflexivity |].
  split.
  - intros H. specialize (H (scenario.at_local 15 10)).
    vm_compute in H. discriminate.
  - vm_compute. discriminate.
Qed.

(** C6, amended. Under the contract of [sort.Slice] the Aggregator
    returns the jobs rearranged newest first, with the counters of the
    jobs it was given; applied to its own output it returns the same
    counters and jobs with the same creation instants in the same order.
    The order of jobs created at the same instant is not fixed. *)
Theorem aggregator_newest_first env (jobs : list Job) :
  sort_Slice_spec (sort_Slice env) ->
  let stats := fst (Aggregator env jobs) in
  let sorted := snd (Aggregator env jobs) in
  let stats' := fst (Aggregator env sorted) in
  let sorted' := snd (Aggregator env sorted) in
  newest_first sorted
  /\ Permutation jobs sorted
  /\ stats = calculateStats jobs
  /\ stats' = stats
  /\ Permutation sorted sorted'
  /\ map CreatedAt sorted' = map CreatedAt sorted.
Proof.
  intros Hspec. unfold Aggregator. cbn [fst snd].
  destruct (sort_newer env jobs Hspec) as [HP HS].
  destruct (sort_newer env (sort_Slice env newer jobs) Hspec) as [HP' HS'].
  split; [exact HS |]. split; [exact HP |].
  split; [symmetry; apply calculateStats_perm; exact HP |].
  split; [symmetry; apply calculateStats_perm; exact HP' |].
  split; [exact HP' |].
  apply sorted_instants_unique.
  - apply newest_first_instants. exact HS'.
  - apply newest_first_instants. exact HS.
  - apply Permutation_map. apply Permutation_sym. exact HP'.
Qed.

(** The amended claim for the two jobs created at the same instant,
    under the sort that reverses them. *)
Lemma aggregator_newest_first_witness :
  let env := scenario.reversing in
  let stats := fst (Aggregator env scenario.twins) in
  let sorted := snd (Aggregator env scenario.twins) in
  let stats' := fst (Aggregator env sorted) in
  let sorted' := snd (Aggregator env sorted) in
  sort_Slice_spec (sort_Slice env)
  /\ newest_first sorted
  /\ Permutation scenario.twins sorted
  /\ stats = calculateStats scenario.twins
  /\ stats' = stats
  /\ Permutation sorted sorted'
  /\ map CreatedAt sorted' = map CreatedAt sorted.
Proof.
  cbv zeta. split; [apply reversing_sort_spec |].
  apply (aggregator_newest_first scenario.reversing scenario.twins).
  apply reversing_sort_spec.
Defined.

(** *** The duration of a run that has only a start instant *)

(** A run with [RunStartedAt] but neither [UpdatedAt] nor [CreatedAt]
    gets the duration "N/A", and the clock is not read. *)
Lemma duration_started_only env run w :
  github.WorkflowRun.RunStartedAt run <> None ->
  github.WorkflowRun.UpdatedAt run = None ->
  github.WorkflowRun.CreatedAt run = None ->
  duration env run w = ("N/A", w).
Proof.
  intros Hs Hu Hc. unfold duration. rewrite Hu, Hc.
  destruct (github.WorkflowRun.RunStartedAt run); reflexivity.
Qed.

(** C4, at the failing input. A run that started at 10:00 today and has
    neither an update nor a creation instant passes the window tests and
    is in the response with the duration "N/A", although it has a start
    instant; its sibling field [Started] is computed from that start
    instant. *)
Theorem duration_NA_despite_start :
  let env := scenario.with_started_only in
  github.WorkflowRun.RunStartedAt scenario.started_only = Some (scenario.at_local 15 10)
  /\ github.WorkflowRun.UpdatedAt scenario.started_only = None
  /\ exists response,
      fst (dashboardHandler env "today" scenario.start) = http_JSON response
      /\ map RunID (Jobs response) = [github.WorkflowRun.ID scenario.started_only]
      /\ map Duration (Jobs response) = ["N/A"]
      /\ map Started (Jobs response) = ["2 hours ago"].
Proof.
  cbv zeta.
  split; [reflexivity |]. split; [reflexivity |].
  destruct (dashboardHandler_replies scenario.with_started_only "today" scenario.start)
    as [response Hreply].
  exists response. split; [exact Hreply |].
  vm_compute in Hreply. injection Hreply as H. subst response.
  repeat split; reflexivity.
Qed.

(* ================================================================= *)
(** ** Configuration *)

Example parseOrganizations_examples :
  parseOrganizations "acme, beta ,,gamma" = ["acme"; "beta"; "gamma"]
  /\ parseOrganizations " , ," = []
  /\ parseOrganizations "" = []
  /\ parseOrganizations "a b,a b" = ["a b"; "a b"].
Proof. repeat split; reflexivity. Qed.

Module config.

Import strings_more.

Lemma fold_append (orgs : list string) (acc : list string) :
  List.fold_left
    (fun result org =>
       let org := TrimSpace org in
       if negb (org =? "")%string then (result ++ [org])%list else result)
    orgs acc
  = (acc ++ List.filter (fun org => negb (org =? "")%string) (List.map TrimSpace orgs))%list.
Proof.
  revert acc. induction orgs as [| org orgs IH]; intros acc; cbn [fold_left map filter].
  - rewrite app_nil_r. reflexivity.
  - rewrite IH. destruct (negb (TrimSpace org =? "")%string).
    + rewrite <- app_assoc. reflexivity.
    + reflexivity.
Qed.

(** [parseOrganizations] keeps, in order, the trimmed pieces that are
    not empty. *)
Lemma parseOrganizations_filter orgEnv :
  parseOrganizations orgEnv
  = List.filter (fun org => negb (org =? "")%string)
                (List.map TrimSpace (Split orgEnv ",")).
Proof. unfold parseOrganizations. rewrite fold_append. reflexivity. Qed.

(** *** Pieces *)

Lemma Split_nonempty s sep : Split s sep <> [].
Proof.
  destruct s as [| c r]; cbn [Split]; [discriminate |].
  destruct (Ascii.eqb c sep); [discriminate |].
  destruct (Split r sep); discriminate.
Qed.

Lemma Split_pieces (P : ascii -> Prop) s sep :
  Forall (fun c => c = sep \/ P c) (list_ascii_of_string s)
  <-> Forall (fun piece => Forall (fun c => c = sep \/ P c) (list_ascii_of_string piece)) (Split s sep).
Proof.
  induction s as [| c r IH]; cbn [Split list_ascii_of_string].
  - split; intros _; repeat constructor.
  - destruct (Ascii.eqb_spec c sep) as [E | E].
    + split.
      * intros H. inversion H; subst. constructor; [constructor | apply IH; assumption].
      * intros H. inversion H; subst. constructor; [left; reflexivity | apply IH; assumption].
    + pose proof (Split_nonempty r sep) as Hne.
      destruct (Split r sep) as [| piece pieces]; [contradiction |].
      split.
      * intros H. inversion H as [| ? ? Hc Hr]; subst.
        apply IH in Hr. inversion Hr; subst.
        constructor; [| assumption]. cbn [list_ascii_of_string]. constructor; assumption.
      * intros H. inversion H as [| ? ? Hp Hps]; subst.
        cbn [list_ascii_of_string] in Hp. inversion Hp; subst.
        constructor; [assumption |]. apply IH. constructor; assumption.
Qed.

Lemma Split_no_sep s sep :
  Forall (fun piece => Forall (fun c => c <> sep) (list_ascii_of_string piece)) (Split s sep).
Proof.
  induction s as [| c r IH]; cbn [Split].
  - repeat constructor.
  - destruct (Ascii.eqb_spec c sep) as [E | E].
    + constructor; [constructor | exact IH].
    + destruct (Split r sep) as [| piece pieces].
      * repeat constructor. exact E.
      * inversion IH; subst. constructor; [| assumption].
        cbn [list_ascii_of_string]. constructor; assumption.
Qed.

Lemma Split_plain s sep :
  Forall (fun c => c <> sep) (list_ascii_of_string s) -> Split s sep = [s].
Proof.
  induction s as [| c r IH]; intros H; cbn [Split]; [reflexivity |].
  cbn [list_ascii_of_string] in H. inversion H as [| ? ? Hc Hr]; subst.
  destruct (Ascii.eqb_spec c sep); [contradiction |].
  rewrite (IH Hr). reflexivity.
Qed.

Lemma Split_app s rest sep :
  Forall (fun c => c <> sep) (list_ascii_of_string s) ->
  Split (s ++ String sep rest) sep = s :: Split rest sep.
Proof.
  induction s as [| c r IH]; intros H; cbn [append Split].
  - rewrite Ascii.eqb_refl. reflexivity.
  - cbn [list_ascii_of_string] in H. inversion H as [| ? ? Hc Hr]; subst.
    destruct (Ascii.eqb_spec c sep); [contradiction |].
    rewrite (IH Hr). reflexivity.
Qed.

(** *** Trimming *)

Lemma TrimLeft_chars (P : ascii -> Prop) s :
  Forall P (list_ascii_of_string s) -> Forall P (list_ascii_of_string (TrimLeft s)).
Proof.
  induction s as [| c r IH]; intros H; cbn [TrimLeft]; [exact H |].
  destruct (isSpace c); [| exact H].
  cbn [list_ascii_of_string] in H. inversion H; subst. apply IH. assumption.
Qed.

Lemma TrimRight_chars (P : ascii -> Prop) s :
  Forall P (list_ascii_of_string s) -> Forall P (list_ascii_of_string (TrimRight s)).
Proof.
  induction s as [| c r IH]; intros H; cbn [TrimRight]; [exact H |].
  cbn [list_ascii_of_string] in H. inversion H as [| ? ? Hc Hr]; subst.
  specialize (IH Hr).
  destruct (TrimRight r) as [| c' r'].
  - destruct (isSpace c); [constructor | repeat constructor; assumption].
  - cbn [list_ascii_of_string]. constructor; assumption.
Qed.

Lemma TrimLeft_head s :
  TrimLeft s = "" \/ exists c r, TrimLeft s = String c r /\ isSpace c = false.
Proof.
  induction s as [| c r IH]; cbn [TrimLeft]; [left; reflexivity |].
  destruct (isSpace c) eqn:E; [exact IH |].
  right. exists c, r. split; [reflexivity | exact E].
Qed.

Lemma TrimLeft_fixed c r : isSpace c = false -> TrimLeft (String c r) = String c r.
Proof. intros E. cbn [TrimLeft]. rewrite E. reflexivity. Qed.

Lemma TrimRight_cons c r :
  isSpace c = false -> TrimRight (String c r) = String c (TrimRight r).
Proof.
  intros E. cbn [TrimRight]. rewrite E. destruct (TrimRight r); reflexivity.
Qed.

Lemma TrimRight_idem s : TrimRight (TrimRight s) = TrimRight s.
Proof.
  induction s as [| c r IH]; cbn [TrimRight]; [reflexivity |].
  destruct (TrimRight r) as [| c' r'] eqn:E.
  - destruct (isSpace c) eqn:Ec; [reflexivity |].
    cbn [TrimRight]. rewrite Ec. reflexivity.
  - cbn [TrimRight] in *. rewrite IH. reflexivity.
Qed.

Lemma TrimSpace_idem s : TrimSpace (TrimSpace s) = TrimSpace s.
Proof.
  unfold TrimSpace.
  destruct (TrimLeft_head s) as [E | (c & r & E & Hc)]; rewrite E.
  - reflexivity.
  - rewrite (TrimRight_cons c r Hc), (TrimLeft_fixed c _ Hc).
    rewrite <- (TrimRight_cons c r Hc). apply TrimRight_idem.
Qed.

Lemma has_comma_false s :
  has_comma s = false <-> Forall (fun c => c <> ","%char) (list_ascii_of_string s).
Proof.
  unfold has_comma. induction (list_ascii_of_string s) as [| c l IH]; cbn [existsb].
  - split; [constructor | reflexivity].
  - rewrite Bool.orb_false_iff, IH. split.
    + intros [Hc Hl]. constructor; [| exact Hl].
      intros E. subst c. discriminate.
    + intros H. inversion H as [| ? ? Hc Hl]; subst. split; [| exact Hl].
      destruct (Ascii.eqb_spec c ","); [contradiction | reflexivity].
Qed.

Lemma chars_app s t :
  list_ascii_of_string (s ++ t) = (list_ascii_of_string s ++ list_ascii_of_string t)%list.
Proof. induction s as [| c r IH]; cbn; [reflexivity | rewrite IH; reflexivity]. Qed.

Lemma TrimLeft_spaces before s : spaces before -> TrimLeft (before ++ s) = TrimLeft s.
Proof.
  unfold spaces. induction before as [| c r IH]; intros H; cbn; [reflexivity |].
  cbn in H. inversion H as [| ? ? Hc Hr]; subst. rewrite Hc. apply IH. exact Hr.
Qed.

Lemma TrimRight_spaces after : spaces after -> TrimRight after = "".
Proof.
  unfold spaces. induction after as [| c r IH]; intros H; cbn [TrimRight]; [reflexivity |].
  cbn in H. inversion H as [| ? ? Hc Hr]; subst. rewrite (IH Hr), Hc. reflexivity.
Qed.

Lemma TrimRight_app_spaces s after :
  spaces after -> TrimRight (s ++ after) = TrimRight s.
Proof.
  intros H. induction s as [| c r IH]; cbn [append TrimRight].
  - apply TrimRight_spaces. exact H.
  - rewrite IH. reflexivity.
Qed.

(** A name that trimming leaves alone starts with no white space. *)
Lemma clean_TrimLeft s : TrimSpace s = s -> TrimLeft s = s.
Proof.
  unfold TrimSpace. intros H.
  destruct (TrimLeft_head s) as [E | (c & r & E & Hc)].
  - rewrite E in H. cbn in H. subst s. reflexivity.
  - rewrite E in H. rewrite (TrimRight_cons c r Hc) in H.
    rewrite <- H. apply TrimLeft_fixed. exact Hc.
Qed.

Lemma TrimSpace_padded name piece :
  TrimSpace name = name -> padded name piece -> TrimSpace piece = name.
Proof.
  intros Hname (before & after & Hb & Ha & ->).
  pose proof (clean_TrimLeft name Hname) as Hl.
  unfold TrimSpace in *.
  rewrite (TrimLeft_spaces before _ Hb).
  destruct name as [| c r].
  - cbn [append]. rewrite TrimRight_spaces.
    + reflexivity.
    + apply TrimLeft_chars. exact Ha.
  - assert (Hc : isSpace c = false).
    { cbn [TrimLeft] in Hl. destruct (isSpace c) eqn:E; [| reflexivity].
      exfalso.
      assert (Hlen : (String.length (TrimLeft r) <= String.length r)%nat).
      { clear. induction r as [| c' r' IH]; cbn; [lia |].
        destruct (isSpace c'); cbn; lia. }
      rewrite Hl in Hlen. cbn in Hlen. lia. }
    cbn [append]. rewrite (TrimLeft_fixed c _ Hc).
    change (String c (r ++ after)) with (String c r ++ after).
    rewrite (TrimRight_app_spaces _ after Ha).
    rewrite Hl in Hname. exact Hname.
Qed.

Lemma spaces_no_comma s :
  spaces s -> Forall (fun c => c <> ","%char) (list_ascii_of_string s).
Proof.
  unfold spaces. apply Forall_impl. intros c Hc E. subst c. discriminate.
Qed.

Lemma padded_no_comma name piece :
  has_comma name = false -> padded name piece ->
  Forall (fun c => c <> ","%char) (list_ascii_of_string piece).
Proof.
  intros Hname (before & after & Hb & Ha & ->).
  rewrite !chars_app. apply Forall_app. split; [apply spaces_no_comma; exact Hb |].
  apply Forall_app. split; [apply has_comma_false; exact Hname |].
  apply spaces_no_comma. exact Ha.
Qed.

Lemma Split_Join pieces :
  pieces <> [] ->
  Forall (fun piece => Forall (fun c => c <> ","%char) (list_ascii_of_string piece)) pieces ->
  Split (Join pieces ",") "," = pieces.
Proof.
  induction pieces as [| piece rest IH]; intros Hne Hall; [contradiction |].
  inversion Hall as [| ? ? Hp Hrest]; subst.
  destruct rest as [| piece' rest'].
  - cbn [Join]. apply Split_plain. exact Hp.
  - change (Join (piece :: piece' :: rest') ",")
      with (piece ++ String "," (Join (piece' :: rest') ",")).
    rewrite (Split_app _ _ _ Hp). f_equal. apply IH; [discriminate | exact Hrest].
Qed.

Lemma names_clean (orgEnv : string) :
  Forall clean_name (parseOrganizations orgEnv).
Proof.
  rewrite parseOrganizations_filter.
  apply Forall_forall. intros org Hin.
  apply filter_In in Hin. destruct Hin as [Hin Hne].
  apply in_map_iff in Hin. destruct Hin as (piece & <- & Hpiece).
  split; [| split].
  - intros E. rewrite E in Hne. discriminate.
  - apply has_comma_false.
    apply TrimRight_chars, TrimLeft_chars.
    pose proof (Split_no_sep orgEnv ",") as H.
    rewrite Forall_forall in H. apply H. exact Hpiece.
  - apply TrimSpace_idem.
Qed.

Lemma TrimLeft_empty s : TrimLeft s = "" <-> spaces s.
Proof.
  unfold spaces. induction s as [| c r IH]; cbn [TrimLeft list_ascii_of_string].
  - split; [constructor | reflexivity].
  - destruct (isSpace c) eqn:E.
    + rewrite IH. split.
      * intros H. constructor; assumption.
      * intros H. inversion H; subst. assumption.
    + split; [discriminate |].
      intros H. inversion H as [| ? ? Hc Hr]; subst. congruence.
Qed.

Lemma TrimRight_empty s : TrimRight s = "" <-> spaces s.
Proof.
  unfold spaces. induction s as [| c r IH]; cbn [TrimRight list_ascii_of_string].
  - split; [constructor | reflexivity].
  - destruct (TrimRight r) as [| c' r'] eqn:Er.
    + destruct (isSpace c) eqn:E.
      * split; [| reflexivity]. intros _. constructor; [exact E |].
        apply IH. reflexivity.
      * split; [discriminate |].
        intros H. inversion H as [| ? ? Hc Hr]; subst. congruence.
    + split; [discriminate |].
      intros H. inversion H as [| ? ? Hc Hr]; subst.
      apply IH in Hr. discriminate.
Qed.

Lemma TrimSpace_empty s : TrimSpace s = "" <-> spaces s.
Proof.
  unfold TrimSpace. rewrite TrimRight_empty. split.
  - intros H. destruct (TrimLeft_head s) as [E | (c & r & E & Hc)].
    + apply TrimLeft_empty. exact E.
    + rewrite E in H. unfold spaces in H. cbn in H.
      inversion H as [| ? ? Hc' Hr]; subst. congruence.
  - intros H. apply TrimLeft_chars. exact H.
Qed.

(** No name comes back exactly from commas and white space. *)
Lemma no_names_iff_blank orgEnv : parseOrganizations orgEnv = [] <-> blank orgEnv.
Proof.
  rewrite parseOrganizations_filter. unfold blank.
  rewrite (Split_pieces (fun c => isSpace c = true) orgEnv ",").
  pose proof (Split_no_sep orgEnv ",") as Hsep.
  induction (Split orgEnv ",") as [| piece pieces IH]; cbn [map filter].
  - split; [constructor | reflexivity].
  - inversion Hsep as [| ? ? Hp Hps]; subst. specialize (IH Hps).
    destruct (String.eqb_spec (TrimSpace piece) "") as [E | E]; cbn [negb].
    + rewrite IH. split.
      * intros H. constructor; [| exact H].
        apply TrimSpace_empty in E. eapply Forall_impl; [| exact E].
        intros c Hc. right. exact Hc.
      * intros H. inversion H; subst. assumption.
    + split; [discriminate |].
      intros H. inversion H as [| ? ? Hblank _]; subst.
      exfalso. apply E. apply TrimSpace_empty. unfold spaces.
      rewrite Forall_forall in *. intros c Hc.
      destruct (Hblank c Hc) as [-> | Hs]; [| exact Hs].
      exfalso. apply (Hp _ Hc). reflexivity.
Qed.

End config.

(** X1. Every name [parseOrganizations] returns is not empty, holds no
    comma and has no white space at either end: trimming it again
    changes nothing. *)
Theorem parseOrganizations_clean (orgEnv : string) :
  Forall clean_name (parseOrganizations orgEnv).
Proof. exact (config.names_clean orgEnv). Qed.

(** X2. Names that are not empty, hold no comma and have no white space
    at their ends come back from [parseOrganizations] as they are, in
    order and with their repetitions, when they are joined with commas,
    each with any white space around it. *)
Theorem parseOrganizations_Join (names pieces : list string) :
  Forall clean_name names ->
  Forall2 padded names pieces ->
  parseOrganizations (strings_more.Join pieces ",") = names.
Proof.
  intros Hclean Hpad.
  rewrite config.parseOrganizations_filter.
  assert (Htrim : List.filter (fun org => negb (org =? "")%string)
                              (List.map strings_more.TrimSpace pieces) = names).
  { revert Hclean.
    induction Hpad as [| name piece names pieces Hp Hps IH]; intros Hclean;
      [reflexivity |].
    inversion Hclean as [| ? ? (Hne & Hcomma & Htrim) Hrest]; subst.
    cbn [map filter].
    rewrite (config.TrimSpace_padded name piece Htrim Hp).
    destruct (String.eqb_spec name ""); [contradiction |].
    cbn [negb]. f_equal. apply IH. exact Hrest. }
  assert (Hcomma : Forall (fun piece => Forall (fun c => c <> ","%char)
                                               (list_ascii_of_string piece)) pieces).
  { clear Htrim. revert Hclean.
    induction Hpad as [| name piece names pieces Hp Hps IH]; intros Hclean;
      [constructor |].
    inversion Hclean as [| ? ? (Hne & Hcomma & Htrim') Hrest]; subst.
    constructor; [| apply IH; exact Hrest].
    apply (config.padded_no_comma name); assumption. }
  destruct pieces as [| piece rest].
  - cbn in Htrim. exact Htrim.
  - rewrite config.Split_Join; [exact Htrim | discriminate | exact Hcomma].
Qed.

(** The round trip for two names, the second with white space around it. *)
Lemma parseOrganizations_Join_witness :
  Forall clean_name ["acme"; "beta org"]
  /\ Forall2 padded ["acme"; "beta org"] ["acme"; "  beta org "]
  /\ parseOrganizations (strings_more.Join ["acme"; "  beta org "] ",")
     = ["acme"; "beta org"].
Proof.
  assert (Hclean : Forall clean_name ["acme"; "beta org"]).
  { repeat constructor; try discriminate; reflexivity. }
  assert (Hpad : Forall2 padded ["acme"; "beta org"] ["acme"; "  beta org "]).
  { constructor; [| constructor; [| constructor]].
    - exists "", "". repeat split; constructor.
    - exists "  ", " ". repeat split; repeat constructor. }
  split; [exact Hclean |]. split; [exact Hpad |].
  apply (parseOrganizations_Join ["acme"; "beta org"] ["acme"; "  beta org "] Hclean Hpad).
Defined.



(* ================================================================= *)
(** ** The formatters at their edges *)

Lemma Sub_bounds t u : time.minDuration <= time.Sub t u <= time.maxDuration.
Proof.
  unfold time.Sub, time.minDuration, time.maxDuration.
  destruct (Z.ltb_spec (t - u) (- 2 ^ 63)); [lia |].
  destruct (Z.ltb_spec (2 ^ 63 - 1) (t - u)); lia.
Qed.

Lemma Sub_negative t u : t < u -> time.minDuration <= time.Sub t u < 0.
Proof.
  intros H. unfold time.Sub, time.minDuration, time.maxDuration.
  destruct (Z.ltb_spec (t - u) (- 2 ^ 63)); [lia |].
  destruct (Z.ltb_spec (2 ^ 63 - 1) (t - u)); lia.
Qed.

Lemma rem_60_nonpos q : q <= 0 -> -59 <= Z.rem q 60 <= 0.
Proof. intros H. Z.to_euclidean_division_equations. lia. Qed.





(** X7. For an instant less than a minute before the reading of the
    clock, or after it, [formatTimeAgo] is "just now": an instant in the
    future is never reported as such. *)
Theorem formatTimeAgo_just_now env (t : time.Time) (w : World) :
  clock env (ticks w) - t < time.Minute ->
  fst (formatTimeAgo env t w) = "just now".
Proof.
  intros Hlt. unfold formatTimeAgo, bind, time_Now, ret. cbn [fst].
  rewrite int_days, int_Hours, int_Minutes.
  set (d := time.Sub (clock env (ticks w)) t).
  assert (Hd : d < time.Minute).
  { subst d. unfold time.Sub, time.minDuration, time.maxDuration, time.Minute, time.Second in *.
    destruct (Z.ltb_spec (clock env (ticks w) - t) (- 2 ^ 63)); [lia |].
    destruct (Z.ltb_spec (2 ^ 63 - 1) (clock env (ticks w) - t)); lia. }
  assert (Hq : forall unit, time.Minute <= unit -> Z.quot d unit <= 0).
  { intros unit Hu.
    assert (Hpos : 0 < unit) by (unfold time.Minute, time.Second in *; lia).
    destruct (Z.le_gt_cases 0 d) as [Hnn | Hneg].
    - rewrite Z.quot_small by lia. lia.
    - apply Z.quot_le_upper_bound; lia. }
  pose proof (Hq (24 * time.Hour) ltac:(unfold time.Hour, time.Minute, time.Second; lia)).
  pose proof (Hq time.Hour ltac:(unfold time.Hour, time.Minute, time.Second; lia)).
  pose proof (Hq time.Minute ltac:(lia)).
  destruct (Z.ltb_spec 0 (Z.quot d (24 * time.Hour))); [lia |].
  destruct (Z.ltb_spec 0 (Z.quot d time.Hour)); [lia |].
  destruct (Z.ltb_spec 0 (Z.quot d time.Minute)); [lia |].
  reflexivity.
Qed.

(** An instant one hour after the reading of the clock. *)
Lemma formatTimeAgo_just_now_witness :
  clock scenario.three_orgs 0 - scenario.at_local 15 13 < time.Minute
  /\ fst (formatTimeAgo scenario.three_orgs (scenario.at_local 15 13) scenario.start)
     = "just now".
Proof.
  split; [vm_compute; reflexivity |].
  apply (formatTimeAgo_just_now scenario.three_orgs (scenario.at_local 15 13) scenario.start).
  vm_compute. reflexivity.
Defined.

(* ================================================================= *)
(** ** The repository filter and the windows *)

(** X8. The repository filter keeps exactly the listed repositories
    whose [PushedAt], or [UpdatedAt] where [PushedAt] is missing, is not
    before the start of the window and, for [today], not after its end: a
    repository with neither instant is dropped, and [UpdatedAt] is not
    looked at when [PushedAt] is there. It is the test the run loop
    applies to the start instant of a run. *)
Theorem filteredRepos_window env (period : string) (now : time.Time)
        (repos : list github.Repository.t) (repo : github.Repository.t) :
  (In repo (filteredRepos env period now repos)
   <-> In repo repos
       /\ exists t,
           (github.Repository.PushedAt repo = Some t
            \/ (github.Repository.PushedAt repo = None
                /\ github.Repository.UpdatedAt repo = Some t))
           /\ startTime env period now <= t
           /\ (period = "today" -> t <= endTime env now))
  /\ (forall t, github.Repository.PushedAt repo = Some t ->
                repoKept env period now repo = runKept env period now t).
Proof.
  split.
  - unfold filteredRepos. rewrite filter_In, repoKept_runKept.
    assert (Hk : forall t,
               runKept env period now t = true
               <-> startTime env period now <= t
                   /\ (period = "today" -> t <= endTime env now)).
    { intros t. rewrite runKept_bounds, Bool.andb_true_iff, Z.leb_le.
      destruct (String.eqb_spec period "today") as [E | E].
      - rewrite Z.leb_le. tauto.
      - split; [intros [H _]; split; [exact H | contradiction] | intros [H _]; auto]. }
    split.
    + intros [Hin Hkept]. split; [exact Hin |].
      destruct (github.Repository.PushedAt repo) as [t |].
      * exists t. split; [left; reflexivity | apply Hk; exact Hkept].
      * destruct (github.Repository.UpdatedAt repo) as [t |]; [| discriminate].
        exists t. split; [right; split; reflexivity | apply Hk; exact Hkept].
    + intros [Hin (t & [Hp | [Hp Hu]] & Hw)]; split; try exact Hin.
      * rewrite Hp. apply Hk. exact Hw.
      * rewrite Hp, Hu. apply Hk. exact Hw.
  - intros t Hp. rewrite repoKept_runKept, Hp. reflexivity.
Qed.

Lemma today_start_after_week_start env now :
  startTime env "week" now <= startTime env "today" now.
Proof.
  rewrite startTime_week, startTime_today, walltime.AddDate_days.
  destruct (walltime.Date_same_day (Local env) now 1 ltac:(lia)) as [-> _].
  rewrite <- (walltime.at_wall_self (Local env) now) at 1.
  unfold at_wall, time.Hour, time.Minute, time.Second.
  pose proof (Z.mod_pos_bound (time.wall (Local env) now) 86400 ltac:(lia)).
  pose proof (Z.mod_pos_bound now 1000000000 ltac:(lia)).
  lia.
Qed.

Lemma today_start_after_month_start env now :
  startTime env "month" now <= startTime env "today" now.
Proof.
  rewrite startTime_month, startTime_today.
  destruct (walltime.Date_same_day (Local env) now 1 ltac:(lia)) as [-> _].
  destruct (walltime.Date_first_of_month (Local env) now) as [-> _].
  pose proof (walltime.Day_range (Local env) now).
  unfold at_wall, time.Second. lia.
Qed.

(** X9. The window of [today] lies inside the windows of [week] and of
    [month]: an instant kept for [today] is kept for both, and so is a
    repository. *)
Theorem today_inside_week_and_month env (now t : time.Time) :
  runKept env "today" now t = true ->
  runKept env "week" now t = true
  /\ runKept env "month" now t = true
  /\ (forall repo,
         repoKept env "today" now repo = true ->
         repoKept env "week" now repo = true /\ repoKept env "month" now repo = true).
Proof.
  assert (Hin : forall u,
             runKept env "today" now u = true ->
             runKept env "week" now u = true /\ runKept env "month" now u = true).
  { intros u. rewrite !runKept_bounds.
    cbn [String.eqb Ascii.eqb Bool.eqb andb].
    rewrite !Bool.andb_true_r, !Bool.andb_true_iff, !Z.leb_le.
    pose proof (today_start_after_week_start env now).
    pose proof (today_start_after_month_start env now).
    lia. }
  intros Ht. destruct (Hin t Ht) as [Hw Hm].
  split; [exact Hw |]. split; [exact Hm |].
  intros repo. rewrite !repoKept_runKept.
  destruct (github.Repository.PushedAt repo) as [u |]; [apply Hin |].
  destruct (github.Repository.UpdatedAt repo) as [u |]; [apply Hin | discriminate].
Qed.

(** Ten in the morning, seen at noon. *)
Lemma today_inside_week_and_month_witness :
  let env := scenario.three_orgs in
  let now := scenario.noon in
  let t := scenario.at_local 15 10 in
  runKept env "today" now t = true
  /\ runKept env "week" now t = true
  /\ runKept env "month" now t = true
  /\ (forall repo,
         repoKept env "today" now repo = true ->
         repoKept env "week" now repo = true /\ repoKept env "month" now repo = true).
Proof.
  cbv zeta. split; [vm_compute; reflexivity |].
  apply (today_inside_week_and_month scenario.three_orgs scenario.noon
                                     (scenario.at_local 15 10)).
  vm_compute. reflexivity.
Defined.

(** X10. In the first hour of the local day the window of [today] has
    not begun: no instant up to the current one is kept, so the
    dashboard of [today] shows no run that has started. *)
Theorem today_empty_before_one env (now t : time.Time) :
  time.Hour_of (Local env) now = 0 ->
  t <= now ->
  runKept env "today" now t = false.
Proof.
  intros Hhour Hpast.
  rewrite runKept_bounds.
  apply Bool.andb_false_iff. left. apply Z.leb_gt.
  rewrite startTime_today.
  destruct (walltime.Date_same_day (Local env) now 1 ltac:(lia)) as [-> _].
  rewrite <- (walltime.at_wall_self (Local env) now) in Hpast.
  unfold time.Hour_of in Hhour.
  unfold at_wall, time.Second in *.
  pose proof (Z.mod_pos_bound (time.wall (Local env) now) 86400 ltac:(lia)).
  pose proof (Z.mod_pos_bound now 1000000000 ltac:(lia)).
  assert (time.wall (Local env) now mod 86400 < 3600).
  { Z.to_euclidean_division_equations. lia. }
  lia.
Qed.

(** Half past midnight, and a run that started at midnight. *)
Lemma today_empty_before_one_witness :
  let env := scenario.three_orgs in
  let now := time.Date 2024 3 15 0 30 0 0 scenario.jakarta in
  let t := scenario.at_local 15 0 in
  time.Hour_of (Local env) now = 0
  /\ t <= now
  /\ runKept env "today" now t = false.
Proof.
  cbv zeta. split; [vm_compute; reflexivity |].
  split; [vm_compute; discriminate |].
  apply (today_empty_before_one scenario.three_orgs
           (time.Date 2024 3 15 0 30 0 0 scenario.jakarta) (scenario.at_local 15 0)).
  - vm_compute. reflexivity.
  - vm_compute. discriminate.
Defined.

(* ================================================================= *)
(** ** The API calls of a cycle *)

Lemma repoBody_calls env period now orgName repo acc w :
  exists ev,
    calls (snd (repoBody env period now orgName repo acc w)) = (calls w ++ [ev])%list
    /\ ev_call ev = ListRepositoryWorkflowRuns orgName (github.Repository.Name repo).
Proof.
  unfold repoBody, bind, ListRepositoryWorkflowRuns_call.
  destruct (Actions_ListRepositoryWorkflowRuns env (List.length (calls w)) orgName
              (github.Repository.Name repo)) as [[runs resp] [e |]] eqn:Er.
  - eexists. split; reflexivity.
  - match goal with
    | |- context [forEach runs ?body ?jobs ?w1] =>
        pose proof (runs_loop env period now orgName (github.Repository.Name repo)
                              runs jobs w1) as (new & _ & _ & Hc & _);
        destruct (forEach runs body jobs w1) as [js w2]
    end.
    cbn [snd fst calls] in *. eexists. split; [exact Hc | reflexivity].
Qed.

Lemma repos_calls env period now orgName repos acc w :
  exists evs,
    calls (snd (forEach repos (repoBody env period now orgName) acc w))
    = (calls w ++ evs)%list
    /\ map ev_call evs = run_listings orgName repos.
Proof.
  revert acc w. induction repos as [| repo repos IH]; intros acc w; cbn [forEach].
  - exists []. rewrite app_nil_r. split; reflexivity.
  - unfold bind.
    destruct (repoBody_calls env period now orgName repo acc w) as (ev & Hc & Hev).
    destruct (repoBody env period now orgName repo acc w) as [acc1 w1].
    cbn [snd] in Hc.
    destruct (IH acc1 w1) as (evs & Hcs & Hevs).
    exists (ev :: evs). split.
    + rewrite Hcs, Hc, <- app_assoc. reflexivity.
    + cbn [map run_listings]. rewrite Hev. f_equal. exact Hevs.
Qed.

(** The calls one organization costs. *)
Lemma org_calls env period now orgName acc w :
  exists evs,
    calls (snd (orgBody env period now orgName acc w)) = (calls w ++ evs)%list
    /\ map ev_call evs
       = ListByOrg orgName
         :: match snd (Repositories_ListByOrg env (List.length (calls w)) orgName) with
            | Some _ => []
            | None =>
                run_listings orgName
                  (filteredRepos env period now
                     (fst (fst (Repositories_ListByOrg env (List.length (calls w)) orgName))))
            end.
Proof.
  unfold orgBody, bind, ListByOrg_call.
  destruct (Repositories_ListByOrg env (List.length (calls w)) orgName)
    as [[repos resp] [e |]] eqn:Er; cbn [fst snd].
  - eexists [_]. split; reflexivity.
  - match goal with
    | |- context [forEach ?l ?body ?a ?w1] =>
        destruct (repos_calls env period now orgName l a w1) as (evs & Hc & Hevs)
    end.
    cbn [calls] in Hc.
    eexists (_ :: evs). split.
    + rewrite Hc, <- app_assoc. reflexivity.
    + cbn [map ev_call]. f_equal. exact Hevs.
Qed.

(** X11. Visiting an organization costs one repository listing and,
    where that succeeds, one run listing for each repository the filter
    keeps, in the order of the listing, and no other call: the runs of a
    repository outside the window are never asked for, and after a
    failed repository listing nothing is asked. *)
Theorem orgBody_calls env (period : string) (now : time.Time) (orgName : string)
        (acc : Acc) (w : World) :
  exists evs,
    calls (snd (orgBody env period now orgName acc w)) = (calls w ++ evs)%list
    /\ map ev_call evs
       = ListByOrg orgName
         :: match snd (Repositories_ListByOrg env (List.length (calls w)) orgName) with
            | Some _ => []
            | None =>
                run_listings orgName
                  (filteredRepos env period now
                     (fst (fst (Repositories_ListByOrg env (List.length (calls w)) orgName))))
            end.
Proof. exact (org_calls env period now orgName acc w). Qed.

Lemma orgs_calls env period now orgs acc w :
  exists evs,
    calls (snd (forEach orgs (orgBody env period now) acc w)) = (calls w ++ evs)%list
    /\ filter is_ListByOrg (map ev_call evs) = map ListByOrg orgs
    /\ Forall (fun c => In (call_org c) orgs) (map ev_call evs).
Proof.
  revert acc w. induction orgs as [| orgName orgs IH]; intros acc w; cbn [forEach].
  - exists []. rewrite app_nil_r. repeat split. constructor.
  - unfold bind.
    destruct (org_calls env period now orgName acc w) as (evs1 & Hc1 & Hev1).
    destruct (orgBody env period now orgName acc w) as [acc1 w1]. cbn [snd] in Hc1.
    destruct (IH acc1 w1) as (evs2 & Hc2 & Hf2 & Ho2).
    exists (evs1 ++ evs2)%list.
    split; [rewrite Hc2, Hc1, <- app_assoc; reflexivity |].
    rewrite map_app, filter_app, Hev1, Hf2.
    assert (Hruns : forall repos,
               filter is_ListByOrg (run_listings orgName repos) = []
               /\ Forall (fun c => In (call_org c) (orgName :: orgs))
                         (run_listings orgName repos)).
    { induction repos as [| repo repos [IHf IHo]]; cbn; [split; constructor |].
      split; [exact IHf |]. constructor; [left; reflexivity | exact IHo]. }
    split.
    + cbn [filter is_ListByOrg map].
      destruct (snd (Repositories_ListByOrg env (List.length (calls w)) orgName)).
      * reflexivity.
      * rewrite (proj1 (Hruns _)). reflexivity.
    + apply Forall_app. split.
      * constructor; [left; reflexivity |].
        destruct (snd (Repositories_ListByOrg env (List.length (calls w)) orgName));
          [constructor | apply Hruns].
      * eapply Forall_impl; [| exact Ho2]. intros c Hc. right. exact Hc.
Qed.

(** X12. In one cycle the repositories of every configured organization
    are listed exactly once, in the configured order, whatever fails on
    the way; and every call of the cycle is about a configured
    organization. *)
Theorem cycle_calls env (q : string) (w : World) :
  exists evs,
    calls (snd (dashboardHandler env q w)) = (calls w ++ evs)%list
    /\ filter is_ListByOrg (map ev_call evs) = map ListByOrg (orgNames env)
    /\ Forall (fun c => In (call_org c) (orgNames env)) (map ev_call evs).
Proof.
  destruct (dashboardHandler_run env q w) as (_ & Hcalls & _).
  rewrite Hcalls.
  apply (orgs_calls env (period_of_query q) (clock env (S (ticks w))) (orgNames env)
                    ([], None) {| ticks := S (S (ticks w)); calls := calls w |}).
Qed.

(* ================================================================= *)
(** ** The response *)

Lemma orgs_all_fail env period now orgs acc w :
  (forall n orgName, In orgName orgs -> snd (Repositories_ListByOrg env n orgName) <> None) ->
  fst (forEach orgs (orgBody env period now) acc w) = acc
  /\ ticks (snd (forEach orgs (orgBody env period now) acc w)) = ticks w.
Proof.
  revert w. induction orgs as [| orgName orgs IH]; intros w Hfail.
  - split; reflexivity.
  - rewrite orgs_skip_failed by (apply Hfail; left; reflexivity).
    destruct (IH (logged w (repos_event env w orgName))) as [H1 H2].
    + intros n o Ho. apply Hfail. right. exact Ho.
    + split; [exact H1 | exact H2].
Qed.

(** X13. When the repository listing of every configured organization
    fails, the handler still answers: with no jobs, all counters zero and
    the default rate limit of 5000 of 5000 that resets one hour after the
    clock reading taken at the end of the cycle. *)
Theorem total_outage env (q : string) (w : World) :
  sort_Slice_spec (sort_Slice env) ->
  (forall n orgName,
      In orgName (orgNames env) -> snd (Repositories_ListByOrg env n orgName) <> None) ->
  fst (dashboardHandler env q w)
  = http_JSON
      {| Stats := {| Success := 0; Failed := 0; Running := 0; Pending := 0; Total := 0 |};
         Jobs := [];
         RateLimit := {| Remaining := 5000; Limit := 5000;
                         ResetAt := clock env (S (S (ticks w))) + time.Hour |} |}.
Proof.
  intros Hspec Hfail.
  destruct (dashboardHandler_run env q w) as (Hreply & _ & _).
  rewrite Hreply.
  destruct (orgs_all_fail env (period_of_query q) (clock env (S (ticks w))) (orgNames env)
                          ([], None) {| ticks := S (S (ticks w)); calls := calls w |} Hfail)
    as [Hacc Hticks].
  rewrite Hacc, Hticks. cbn [fst snd ticks].
  destruct (Hspec newer [] newer_strict_weak) as [Hperm _].
  apply Permutation_nil in Hperm. rewrite Hperm.
  reflexivity.
Qed.

(** The deployment in which every repository listing fails. *)
Lemma total_outage_witness :
  sort_Slice_spec (sort_Slice outage)
  /\ (forall n orgName,
         In orgName (orgNames outage) ->
         snd (Repositories_ListByOrg outage n orgName) <> None)
  /\ fst (dashboardHandler outage "week" scenario.start)
     = http_JSON
         {| Stats := {| Success := 0; Failed := 0; Running := 0; Pending := 0; Total := 0 |};
            Jobs := [];
            RateLimit := {| Remaining := 5000; Limit := 5000;
                            ResetAt := clock outage 2 + time.Hour |} |}.
Proof.
  assert (Hfail : forall n orgName,
             In orgName (orgNames outage) ->
             snd (Repositories_ListByOrg outage n orgName) <> None).
  { intros n orgName [<- | [<- | []]]; discriminate. }
  split; [apply insertion_sort_spec |]. split; [exact Hfail |].
  apply (total_outage outage "week" scenario.start insertion_sort_spec Hfail).
Defined.

(** X14. The jobs of every response are ordered newest first, each is
    of a configured organization, and the counters of the response are
    those of its jobs. *)
Theorem response_newest_first env (q : string) (w : World) :
  sort_Slice_spec (sort_Slice env) ->
  exists response,
    fst (dashboardHandler env q w) = http_JSON response
    /\ newest_first (Jobs response)
    /\ Forall (fun job => In (Organization job) (orgNames env)) (Jobs response)
    /\ Stats response = calculateStats (Jobs response).
Proof.
  intros Hspec.
  destruct (response_jobs env q w Hspec)
    as (response & collected & Hreply & Hstats & Hperm & Hsorted & Hall).
  exists response. split; [exact Hreply |]. split; [exact Hsorted |].
  split; [| exact Hstats].
  rewrite Forall_forall in *. intros job Hin.
  apply (Permutation_in job (Permutation_sym Hperm)) in Hin.
  destruct (Hall job Hin) as (orgName & Horg & run & start & _ & _ & _ & Ho & _).
  rewrite Ho. exact Horg.
Qed.

(** The deployment with three organizations. *)
Lemma response_newest_first_witness :
  sort_Slice_spec (sort_Slice scenario.three_orgs)
  /\ exists response,
      fst (dashboardHandler scenario.three_orgs "week" scenario.start) = http_JSON response
      /\ newest_first (Jobs response)
      /\ Forall (fun job => In (Organization job) (orgNames scenario.three_orgs))
                (Jobs response)
      /\ Stats response = calculateStats (Jobs response).
Proof.
  split; [apply insertion_sort_spec |].
  apply (response_newest_first scenario.three_orgs "week" scenario.start).
  apply insertion_sort_spec.
Defined.

(* ================================================================= *)
(** ** The counters, for any list of jobs *)

Lemma count_status_app s jobs1 jobs2 :
  count_status s (jobs1 ++ jobs2) = count_status s jobs1 + count_status s jobs2.
Proof.
  induction jobs1 as [| job jobs1 IH]; cbn [app count_status]; [reflexivity |].
  rewrite IH. lia.
Qed.

(** X15. [calculateStats] counts the jobs of each of the four statuses
    and, in [Total], all jobs; a job with any other status is counted in
    [Total] alone, so the four counters add up to [Total] less the number
    of such jobs. *)
Theorem calculateStats_unknown (jobs : list Job) :
  let stats := calculateStats jobs in
  Success stats = count_status "success" jobs
  /\ Failed stats = count_status "failed" jobs
  /\ Running stats = count_status "running" jobs
  /\ Pending stats = count_status "pending" jobs
  /\ Total stats = Z.of_nat (List.length jobs)
  /\ 0 <= count_unknown jobs
  /\ Success stats + Failed stats + Running stats + Pending stats + count_unknown jobs
     = Total stats.
Proof.
  cbv zeta. rewrite calculateStats_counts.
  cbn [Success Failed Running Pending Total].
  repeat (split; [reflexivity |]).
  induction jobs as [| job jobs [IH0 IH]].
  - cbn [count_status count_unknown List.length]. split; [lia | reflexivity].
  - cbn [count_status count_unknown List.length]. rewrite Nat2Z.inj_succ.
    unfold is_status.
    destruct (String.eqb_spec (Status job) "success") as [E | E];
      [rewrite E; cbn [String.eqb Ascii.eqb Bool.eqb andb orb]; lia |].
    destruct (String.eqb_spec (Status job) "failed") as [E1 | E1];
      [rewrite E1; cbn [String.eqb Ascii.eqb Bool.eqb andb orb]; lia |].
    destruct (String.eqb_spec (Status job) "running") as [E2 | E2];
      [rewrite E2; cbn [String.eqb Ascii.eqb Bool.eqb andb orb]; lia |].
    destruct (String.eqb_spec (Status job) "pending") as [E3 | E3];
      cbn [orb]; lia.
Qed.

(** X16. The counters of two lists of jobs put together are the sums of
    the counters of each. *)
Theorem calculateStats_app (jobs1 jobs2 : list Job) :
  let stats := calculateStats (jobs1 ++ jobs2) in
  let stats1 := calculateStats jobs1 in
  let stats2 := calculateStats jobs2 in
  Success stats = Success stats1 + Success stats2
  /\ Failed stats = Failed stats1 + Failed stats2
  /\ Running stats = Running stats1 + Running stats2
  /\ Pending stats = Pending stats1 + Pending stats2
  /\ Total stats = Total stats1 + Total stats2.
Proof.
  cbv zeta. rewrite !calculateStats_counts.
  cbn [Success Failed Running Pending Total].
  rewrite !count_status_app, length_app, Nat2Z.inj_add.
  repeat split; reflexivity.
Qed.

(* ================================================================= *)
(** ** The texts of a job *)

Lemma undigits_digits u : undigits (fmt.digits u) = u.
Proof. induction u; cbn; congruence. Qed.

Lemma undigits_zeros k s : N.of_uint (undigits (fmt.zeros k ++ s)) = N.of_uint (undigits s).
Proof. induction k as [| k IH]; cbn; [reflexivity | exact IH]. Qed.

(** The number behind a text of zero padding and digits. *)
Lemma padded_digits_value k n :
  N.of_uint (undigits (fmt.zeros k ++ fmt.udec n)) = n.
Proof.
  rewrite undigits_zeros. unfold fmt.udec. rewrite undigits_digits.
  apply DecimalN.Unsigned.of_to.
Qed.

Lemma padded_digits_no_sign k u : minus_sign (fmt.zeros k ++ fmt.digits u) = false.
Proof. destruct k; [destruct u |]; reflexivity. Qed.

(** [%06d] gives different texts for different numbers. *)
Lemma d0_injective n m : fmt.d0 6 n = fmt.d0 6 m -> n = m.
Proof.
  unfold fmt.d0.
  destruct (Z.ltb_spec n 0) as [Hn | Hn]; destruct (Z.ltb_spec m 0) as [Hm | Hm]; intros H.
  - injection H as H.
    apply (f_equal (fun s => N.of_uint (undigits s))) in H.
    rewrite !padded_digits_value in H. lia.
  - apply (f_equal minus_sign) in H.
    unfold fmt.udec in H. rewrite padded_digits_no_sign in H. discriminate.
  - apply (f_equal minus_sign) in H.
    unfold fmt.udec in H. rewrite padded_digits_no_sign in H. discriminate.
  - apply (f_equal (fun s => N.of_uint (undigits s))) in H.
    rewrite !padded_digits_value in H. lia.
Qed.

Lemma makeJob_ID env orgName repoName run w :
  ID (fst (makeJob env orgName repoName run w))
  = "JOB-" ++ fmt.d0 6 (github.WorkflowRun.ID run).
Proof.
  unfold makeJob, bind.
  destruct (duration env run w) as [d w1].
  destruct (started env run w1) as [s w2].
  destruct (github.WorkflowRun.CreatedAt run); reflexivity.
Qed.

(** X17. The identifier of a job names its run: two jobs have the same
    identifier exactly when they were built from runs with the same run
    id, whatever the organization, the repository and the moment. *)
Theorem job_ID_names_run env (orgName repoName orgName' repoName' : string)
        (run run' : github.WorkflowRun.t) (w w' : World) :
  ID (fst (makeJob env orgName repoName run w))
  = ID (fst (makeJob env orgName' repoName' run' w'))
  <-> github.WorkflowRun.ID run = github.WorkflowRun.ID run'.
Proof.
  rewrite !makeJob_ID. split.
  - intros H. injection H as H. apply d0_injective. exact H.
  - intros H. rewrite H. reflexivity.
Qed.

Lemma last_char_app x y : y <> "" -> last_char (x ++ y) = last_char y.
Proof.
  intros Hy. induction x as [| c r IH]; [reflexivity |].
  cbn [append last_char]. rewrite IH.
  destruct (r ++ y) eqn:E; [| reflexivity].
  destruct r; [cbn in E; contradiction | discriminate].
Qed.

Lemma append_assoc_l (a b c : string) : a ++ (b ++ c) = (a ++ b) ++ c.
Proof. induction a as [| x a IH]; cbn [append]; [reflexivity | rewrite IH; reflexivity]. Qed.

Lemma formatDuration_last start end_ : last_char (formatDuration start end_) = Some "s"%char.
Proof.
  unfold formatDuration.
  repeat match goal with
         | |- context [if ?b then _ else _] => destruct b
         end;
    rewrite ?append_assoc_l; apply last_char_app; discriminate.
Qed.

Lemma formatTimeAgo_last env t w :
  last_char (fst (formatTimeAgo env t w)) = Some "o"%char
  \/ last_char (fst (formatTimeAgo env t w)) = Some "w"%char.
Proof.
  unfold formatTimeAgo, bind, time_Now, ret. cbn [fst].
  repeat match goal with
         | |- context [if (0 <? ?x) then _ else _] => destruct (0 <? x)
         end;
    try (left; rewrite ?append_assoc_l;
         rewrite (last_char_app _ " ago") by discriminate; reflexivity).
  right. reflexivity.
Qed.

(** X18. For a run that has a start instant, [RunStartedAt] or
    [CreatedAt], the job never shows "N/A" as its start, and shows "N/A"
    as its duration exactly when the run has neither [CreatedAt] nor
    [UpdatedAt]. *)
Theorem job_NA env (orgName repoName : string) (run : github.WorkflowRun.t)
        (start : time.Time) (w : World) :
  runTime run = Some start ->
  let job := fst (makeJob env orgName repoName run w) in
  Started job <> "N/A"
  /\ (Duration job = "N/A"
      <-> github.WorkflowRun.CreatedAt run = None
          /\ github.WorkflowRun.UpdatedAt run = None).
Proof.
  intros Hrt job. subst job. unfold makeJob, bind.
  assert (Hd : fst (duration env run w) = "N/A"
               <-> github.WorkflowRun.CreatedAt run = None
                   /\ github.WorkflowRun.UpdatedAt run = None).
  { unfold duration, runTime in *.
    destruct (github.WorkflowRun.UpdatedAt run) as [u |],
             (github.WorkflowRun.RunStartedAt run) as [s |],
             (github.WorkflowRun.CreatedAt run) as [c |];
      try discriminate; cbn [fst bind ret time_Now];
      (split;
       [ intros H;
         first [ split; reflexivity
               | apply (f_equal last_char) in H;
                 rewrite formatDuration_last in H; discriminate ]
       | intros [H1 H2]; first [discriminate | reflexivity] ]). }
  destruct (duration env run w) as [d w1]. cbn [fst] in Hd.
  assert (Hs : fst (started env run w1) <> "N/A").
  { assert (Hago : forall t, fst (formatTimeAgo env t w1) <> "N/A").
    { intros t H. apply (f_equal last_char) in H.
      destruct (formatTimeAgo_last env t w1) as [E | E]; rewrite E in H; discriminate. }
    unfold started, runTime in *.
    destruct (github.WorkflowRun.RunStartedAt run) as [s |]; [apply Hago |].
    destruct (github.WorkflowRun.CreatedAt run) as [c |]; [apply Hago | discriminate]. }
  destruct (started env run w1) as [s w2]. cbn [fst] in Hs.
  destruct (github.WorkflowRun.CreatedAt run) as [c |]; cbn [fst Started Duration];
    split; assumption.
Qed.

(** The run that has only a start instant. *)
Lemma job_NA_witness :
  let job := fst (makeJob scenario.three_orgs "acme" "acme-app" scenario.started_only
                          scenario.start) in
  runTime scenario.started_only = Some (scenario.at_local 15 10)
  /\ Started job <> "N/A"
  /\ (Duration job = "N/A"
      <-> github.WorkflowRun.CreatedAt scenario.started_only = None
          /\ github.WorkflowRun.UpdatedAt scenario.started_only = None).
Proof.
  cbv zeta. split; [reflexivity |].
  apply (job_NA scenario.three_orgs "acme" "acme-app" scenario.started_only
                (scenario.at_local 15 10) scenario.start).
  reflexivity.
Defined.

(* ================================================================= *)
(** ** The run loop *)

Lemma runBody_RunID env period now orgName repoName run allJobs w :
  map RunID (fst (runBody env period now orgName repoName run allJobs w))
  = (map RunID allJobs
     ++ if run_in_window env period now run then [github.WorkflowRun.ID run] else [])%list.
Proof.
  unfold runBody, run_in_window.
  destruct (runTime run) as [start |]; [| cbn; rewrite app_nil_r; reflexivity].
  destruct (runKept env period now start); [| cbn; rewrite app_nil_r; reflexivity].
  unfold bind.
  pose proof (makeJob_fields env orgName repoName run w) as (_ & _ & _ & Hid & _).
  destruct (makeJob env orgName repoName run w) as [job w']. cbn [fst] in *.
  unfold ret. cbn [fst]. rewrite map_app. cbn [map]. rewrite Hid. reflexivity.
Qed.

(** X19. From the runs of one listing the run loop collects one job for
    each run whose start instant lies in the window, in the order of the
    listing, behind the jobs collected before; a run outside the window
    or without a start instant leaves no job. *)
Theorem runs_collected_in_order env (period : string) (now : time.Time)
        (orgName repoName : string) (runs : list github.WorkflowRun.t)
        (allJobs : list Job) (w : World) :
  map RunID (fst (forEach runs (runBody env period now orgName repoName) allJobs w))
  = (map RunID allJobs
     ++ map github.WorkflowRun.ID (filter (run_in_window env period now) runs))%list.
Proof.
  revert allJobs w. induction runs as [| run runs IH]; intros allJobs w; cbn [forEach filter].
  - cbn. rewrite app_nil_r. reflexivity.
  - unfold bind.
    pose proof (runBody_RunID env period now orgName repoName run allJobs w) as H.
    destruct (runBody env period now orgName repoName run allJobs w) as [jobs1 w1].
    cbn [fst] in H. rewrite IH, H.
    destruct (run_in_window env period now run); cbn [map];
      rewrite <- app_assoc; reflexivity.
Qed.

(* ================================================================= *)
(** ** The pages of the table *)

Module paging.

Import script.

Lemma firstn_plus {A : Type} (a b : nat) (l : list A) :
  firstn (a + b) l = (firstn a l ++ firstn b (skipn a l))%list.
Proof.
  revert l. induction a as [| a IH]; intros l; [reflexivity |].
  destruct l as [| x l]; cbn [Nat.add firstn skipn app].
  - rewrite firstn_nil. reflexivity.
  - rewrite IH. reflexivity.
Qed.

(** The slice of a page, by natural numbers. *)
Lemma slice_page {A : Type} (l : list A) (k n : nat) :
  slice l (Z.of_nat k * Z.of_nat n) (Z.of_nat k * Z.of_nat n + Z.of_nat n)
  = firstn n (skipn (k * n) l).
Proof.
  unfold slice.
  set (len := Z.of_nat (List.length l)).
  destruct (Z.ltb_spec (Z.of_nat k * Z.of_nat n) 0) as [H | _]; [lia |].
  destruct (Z.ltb_spec (Z.of_nat k * Z.of_nat n + Z.of_nat n) 0) as [H | _]; [lia |].
  destruct (Nat.le_gt_cases (List.length l) (k * n)) as [Hbig | Hsmall].
  - replace (Z.to_nat (Z.min (Z.of_nat k * Z.of_nat n) len)) with (List.length l)
      by (subst len; lia).
    rewrite skipn_all. rewrite (skipn_all2 l Hbig).
    rewrite !firstn_nil. reflexivity.
  - replace (Z.to_nat (Z.min (Z.of_nat k * Z.of_nat n) len)) with (k * n)%nat
      by (subst len; lia).
    destruct (Nat.le_gt_cases (k * n + n) (List.length l)) as [Hfull | Hpart].
    + f_equal. subst len. lia.
    + replace (Z.to_nat (Z.min (Z.of_nat k * Z.of_nat n + Z.of_nat n) len
                         - Z.min (Z.of_nat k * Z.of_nat n) len))
        with (List.length (skipn (k * n) l))
        by (rewrite length_skipn; subst len; lia).
      rewrite firstn_all. symmetry. apply firstn_all2.
      rewrite length_skipn. lia.
Qed.

Lemma pages_concat {A : Type} (l : list A) (n m : nat) :
  List.concat (map (fun k => firstn n (skipn (k * n) l)) (seq 0 m)) = firstn (m * n) l.
Proof.
  induction m as [| m IH]; [reflexivity |].
  rewrite seq_S, map_app, List.concat_app, IH. cbn [Nat.add map List.concat].
  rewrite app_nil_r.
  replace (S m * n)%nat with (m * n + n)%nat by lia.
  symmetry. apply firstn_plus.
Qed.

Lemma totalPages_bounds st :
  0 < itemsPerPage st ->
  let len := Z.of_nat (List.length (filteredJobs st)) in
  0 <= totalPages st
  /\ (totalPages st - 1) * itemsPerPage st < len <= totalPages st * itemsPerPage st
     \/ (len = 0 /\ totalPages st = 0).
Proof.
  intros Hpos len. unfold totalPages. fold len.
  assert (0 <= len) by (subst len; lia).
  Z.to_euclidean_division_equations. nia.
Qed.

(** The rows of page [k + 1]. *)
Lemma jobsToShow_page st (k : nat) :
  0 < itemsPerPage st ->
  jobsToShow (on_page st (Z.of_nat (S k)))
  = firstn (Z.to_nat (itemsPerPage st))
           (skipn (k * Z.to_nat (itemsPerPage st)) (filteredJobs st)).
Proof.
  intros Hpos. unfold jobsToShow, on_page.
  cbn [currentPage itemsPerPage filteredJobs].
  replace (Z.of_nat (S k) - 1) with (Z.of_nat k) by lia.
  rewrite <- (Z2Nat.id (itemsPerPage st)) at 1 2 3 by lia.
  apply slice_page.
Qed.

Lemma pages_shown st :
  0 < itemsPerPage st ->
  List.concat (map (fun page => jobsToShow (on_page st page)) (pages st)) = filteredJobs st
  /\ Forall (fun page =>
               1 <= page <= totalPages st
               /\ 1 <= Z.of_nat (List.length (jobsToShow (on_page st page)))
                  <= itemsPerPage st)
            (pages st).
Proof.
  intros Hpos.
  pose proof (totalPages_bounds st Hpos) as Hb. cbv zeta in Hb.
  set (n := Z.to_nat (itemsPerPage st)).
  set (m := Z.to_nat (totalPages st)).
  assert (Hm : Z.of_nat m = totalPages st) by (subst m; lia).
  assert (Hn : Z.of_nat n = itemsPerPage st) by (subst n; lia).
  unfold pages. fold m. rewrite <- seq_shift, !map_map.
  split.
  - rewrite (map_ext _ (fun k => firstn n (skipn (k * n) (filteredJobs st))))
      by (intros k; apply jobsToShow_page; exact Hpos).
    rewrite pages_concat. apply firstn_all2. nia.
  - apply Forall_forall. intros page Hin.
    apply in_map_iff in Hin. destruct Hin as (k & <- & Hk).
    apply in_seq in Hk.
    split; [lia |].
    rewrite (jobsToShow_page st k Hpos). fold n.
    rewrite length_firstn, length_skipn. nia.
Qed.

End paging.

(** X20. The pages 1 to [totalPages] of the table show the filtered
    jobs once each and in order: put one after the other, the rows of the
    pages are the filtered jobs; and every one of these pages shows at
    least one job and at most [itemsPerPage]. *)
Theorem pages_partition (st : script.State) :
  0 < script.itemsPerPage st ->
  List.concat (map (fun page => script.jobsToShow (script.on_page st page)) (script.pages st))
  = script.filteredJobs st
  /\ Forall (fun page =>
               1 <= page <= script.totalPages st
               /\ 1 <= Z.of_nat (List.length (script.jobsToShow (script.on_page st page)))
                  <= script.itemsPerPage st)
            (script.pages st).
Proof. exact (paging.pages_shown st). Qed.

(** Three jobs, two to a page. *)
Lemma pages_partition_witness :
  let st := {| script.filteredJobs :=
                 [scenario.job "JOB-000001" 3; scenario.job "JOB-000002" 2;
                  scenario.job "JOB-000003" 1];
               script.currentPage := 1;
               script.itemsPerPage := 2 |} in
  0 < script.itemsPerPage st
  /\ script.pages st = [1; 2]
  /\ List.concat (map (fun page => script.jobsToShow (script.on_page st page))
                      (script.pages st))
     = script.filteredJobs st
  /\ Forall (fun page =>
               1 <= page <= script.totalPages st
               /\ 1 <= Z.of_nat (List.length (script.jobsToShow (script.on_page st page)))
                  <= script.itemsPerPage st)
            (script.pages st).
Proof.
  cbv zeta. split; [reflexivity |]. split; [reflexivity |].
  apply pages_partition. reflexivity.
Defined.

(** X21. [changePage] moves to a page from 1 to [totalPages], which
    shows at least one job, and ignores every other request; a current
    page between 1 and the last page stays so. *)
Theorem changePage_in_range (page : Z) (st : script.State) :
  0 < script.itemsPerPage st ->
  (1 <= page <= script.totalPages st ->
   script.changePage page st = script.on_page st page
   /\ script.jobsToShow (script.changePage page st) <> [])
  /\ (page < 1 \/ script.totalPages st < page -> script.changePage page st = st)
  /\ (1 <= script.currentPage st <= Z.max 1 (script.totalPages st) ->
      1 <= script.currentPage (script.changePage page st)
      <= Z.max 1 (script.totalPages (script.changePage page st))).
Proof.
  intros Hpos.
  assert (Hcases :
            (1 <= page <= script.totalPages st
             /\ script.changePage page st = script.on_page st page)
            \/ ((page < 1 \/ script.totalPages st < page)
                /\ script.changePage page st = st)).
  { unfold script.changePage.
    destruct (Z.leb_spec 1 page); [| right; split; [lia | reflexivity]].
    destruct (Z.leb_spec page (script.totalPages st));
      [left; split; [lia | reflexivity] | right; split; [lia | reflexivity]]. }
  split; [| split].
  - intros Hin. destruct Hcases as [[_ E] | [Hout _]]; [| lia].
    split; [exact E |]. rewrite E.
    destruct (paging.pages_shown st Hpos) as [_ Hall].
    rewrite Forall_forall in Hall.
    assert (Hp : In page (script.pages st)).
    { unfold script.pages. apply in_map_iff. exists (Z.to_nat page).
      split; [lia |]. apply in_seq. lia. }
    destruct (Hall page Hp) as [_ Hlen].
    intros Hnil. rewrite Hnil in Hlen. cbn in Hlen. lia.
  - intros Hout. destruct Hcases as [[Hin _] | [_ E]]; [lia | exact E].
  - intros Hcur. destruct Hcases as [[Hin E] | [_ E]]; rewrite E.
    + unfold script.on_page, script.totalPages in *.
      cbn [script.currentPage script.filteredJobs script.itemsPerPage]. lia.
    + exact Hcur.
Qed.

(** Three jobs, two to a page: page 2 is shown, page 3 is refused. *)
Lemma changePage_in_range_witness :
  let st := {| script.filteredJobs :=
                 [scenario.job "JOB-000001" 3; scenario.job "JOB-000002" 2;
                  scenario.job "JOB-000003" 1];
               script.currentPage := 1;
               script.itemsPerPage := 2 |} in
  0 < script.itemsPerPage st
  /\ 1 <= 2 <= script.totalPages st
  /\ script.changePage 2 st = script.on_page st 2
  /\ script.jobsToShow (script.changePage 2 st) <> []
  /\ script.changePage 3 st = st.
Proof.
  cbv zeta. split; [reflexivity |].
  assert (Hin : 1 <= 2 <= 2) by lia.
  split; [exact Hin |].
  pose proof (changePage_in_range 2) as H2.
  pose proof (changePage_in_range 3) as H3.
  match goal with
  | |- script.changePage 2 ?st = _ /\ _ =>
      destruct (H2 st ltac:(reflexivity)) as (Hmove & _ & _);
      destruct (H3 st ltac:(reflexivity)) as (_ & Hstay & _);
      destruct (Hmove Hin) as [E Hne]
  end.
  split; [exact E |]. split; [exact Hne |].
  apply Hstay. right. vm_compute. reflexivity.
Defined.
